(** * EndpointHealthCheck: a shallow embedding of [app.py]

    The monitor ([class EPM]) keeps a [defaultdict] from domain to the two
    counters [up] and [total], probes every configured endpoint once per
    cycle, prints one availability line per domain, sleeps and repeats
    until SIGINT clears [running].

    Python values are embedded as follows:
    - [int] is [Z] (unbounded);
    - a finite [float] is a dyadic number [Fnum * 2 ^ Fexp];
    - [str] is [string];
    - [self.domainStats] is the pair of a [gmap] (the hash table) and the
      list of its keys in insertion order (what [.items()] iterates);
    - exceptions are values of [exn]; code that can raise lives in the
      state-and-exception monad [M]. *)

From stdpp Require Import base strings list gmap pretty.
From Stdlib Require Import Ascii ZArith QArith Lia.

Local Open Scope Z_scope.

(** ** Python exceptions *)

(** The subclasses of [Exception] that can reach the handlers of [app.py].
    Task cancellation ([CancelledError], a [BaseException]) is outside the
    model. *)
Inductive exn : Type :=
  | ValueError (msg : string)               (* urllib.parse *)
  | KeyError (key : string)                 (* a missing key of an endpoint *)
  | ZeroDivisionError
  | OverflowError
  | TimeoutError                            (* ClientTimeout(total=5) expired *)
  | ClientConnectorError (msg : string)     (* connection refused, host unreachable *)
  | ClientConnectorDNSError (msg : string)  (* name resolution failed *)
  | ClientResponseError (msg : string)      (* malformed response *)
  | OtherException (name msg : string).

Inductive Result (A : Type) : Type :=
  | Ok (a : A)
  | Raise (e : exn).
Arguments Ok {A} a.
Arguments Raise {A} e.

(** ** Floats and the two arithmetic operations of [printAvailability] *)

Module PyFloat.

(** A finite binary64 value, [Fnum * 2 ^ Fexp]. *)
Record float : Type := Float { Fnum : Z; Fexp : Z }.

(** The number a float stands for. *)
Definition to_Q (x : float) : Q :=
  if 0 <=? Fexp x then inject_Z (Fnum x * 2 ^ Fexp x)
  else Qmake (Fnum x) (Z.to_pos (2 ^ (- Fexp x))).

(** Exact comparison [x < n] of a float with an [int], as Python does it. *)
Definition ltb_int (x : float) (n : Z) : bool :=
  if 0 <=? Fexp x then Fnum x * 2 ^ Fexp x <? n
  else Fnum x <? n * 2 ^ (- Fexp x).

(** The quotient [n / d] rounded to the nearest integer, ties to the even
    one ([0 < d]). *)
Definition rne_div (n d : Z) : Z :=
  let q := n `div` d in
  let r := n `mod` d in
  match 2 * r ?= d with
  | Lt => q
  | Gt => q + 1
  | Eq => if Z.even q then q else q + 1
  end.

(** [floor (log2 (a / b))] for [0 < a], [0 < b]. *)
Definition ilog2_ratio (a b : Z) : Z :=
  let k := Z.log2 a - Z.log2 b in
  if a * 2 ^ Z.max 0 (- k) <? b * 2 ^ Z.max 0 k then k - 1 else k.

(** [a / b] on two [int]s: the binary64 number nearest to the exact
    quotient (round half to even, gradual underflow below [2 ^ -1022]),
    [ZeroDivisionError] for [b = 0], [OverflowError] past the largest
    float. *)
Definition int_true_div (a b : Z) : Result float :=
  if b =? 0 then Raise ZeroDivisionError
  else if a =? 0 then Ok (Float 0 0)
  else
    let s := Z.sgn a * Z.sgn b in
    let A := Z.abs a in
    let B := Z.abs b in
    let e := Z.max (ilog2_ratio A B - 52) (-1074) in
    let m := rne_div (A * 2 ^ Z.max 0 (- e)) (B * 2 ^ Z.max 0 e) in
    if (0 <=? e) && (2 ^ 1024 <=? m * 2 ^ e) then Raise OverflowError
    else Ok (Float (s * m) e).

(** [round(x)] with one argument: the nearest [int], ties to even. *)
Definition round (x : float) : Z :=
  if 0 <=? Fexp x then Fnum x * 2 ^ Fexp x
  else rne_div (Fnum x) (2 ^ (- Fexp x)).

End PyFloat.

Import PyFloat.

(** ** [urllib.parse.urlparse(url).netloc]

    [getDomain] only delegates to the standard library, so the library
    function is part of the model.  The definitions follow
    [urllib.parse.urlsplit] of CPython 3.12 for the [netloc] component;
    the two validity checks that need other modules ([ipaddress],
    [unicodedata]) are parameters. *)

Module Urllib.

Definition is_c0_control_or_space (c : ascii) : bool :=
  (nat_of_ascii c <=? 32)%nat.

(** [url.lstrip(_WHATWG_C0_CONTROL_OR_SPACE)] *)
Fixpoint lstrip (s : string) : string :=
  match s with
  | String c s' => if is_c0_control_or_space c then lstrip s' else s
  | EmptyString => EmptyString
  end.

(** tab, line feed and carriage return ([_UNSAFE_URL_BYTES_TO_REMOVE]) *)
Definition is_unsafe_byte (c : ascii) : bool :=
  let n := nat_of_ascii c in
  ((n =? 9) || (n =? 10) || (n =? 13))%nat.

Fixpoint remove_unsafe (s : string) : string :=
  match s with
  | String c s' =>
      if is_unsafe_byte c then remove_unsafe s' else String c (remove_unsafe s')
  | EmptyString => EmptyString
  end.

Definition is_ascii_alpha (c : ascii) : bool :=
  let n := nat_of_ascii c in
  ((65 <=? n) && (n <=? 90) || (97 <=? n) && (n <=? 122))%nat.

Definition is_digit (c : ascii) : bool :=
  let n := nat_of_ascii c in ((48 <=? n) && (n <=? 57))%nat.

(** [scheme_chars]: letters, digits, [+], [-] and [.] *)
Definition is_scheme_char (c : ascii) : bool :=
  let n := nat_of_ascii c in
  is_ascii_alpha c || is_digit c || ((n =? 43) || (n =? 45) || (n =? 46))%nat.

Fixpoint string_forallb (p : ascii -> bool) (s : string) : bool :=
  match s with
  | String c s' => p c && string_forallb p s'
  | EmptyString => true
  end.

Fixpoint string_existsb (p : ascii -> bool) (s : string) : bool :=
  match s with
  | String c s' => p c || string_existsb p s'
  | EmptyString => false
  end.

Definition contains (c : ascii) (s : string) : bool :=
  string_existsb (Ascii.eqb c) s.

(** [url[:i], url[i+1:]] for [i = url.find(c)], when [c] occurs. *)
Fixpoint partition_at (c : ascii) (s : string) : option (string * string) :=
  match s with
  | String x s' =>
      if Ascii.eqb x c then Some (EmptyString, s')
      else match partition_at c s' with
           | Some (pre, post) => Some (String x pre, post)
           | None => None
           end
  | EmptyString => None
  end.

(** The text left once a leading [scheme:] has been split off. *)
Definition strip_scheme (url : string) : string :=
  match partition_at ":" url with
  | Some (String c0 pre, rest) =>
      if is_ascii_alpha c0 && string_forallb is_scheme_char (String c0 pre)
      then rest else url
  | _ => url
  end.

Definition is_netloc_delim (c : ascii) : bool :=
  let n := nat_of_ascii c in
  ((n =? 47) || (n =? 63) || (n =? 35))%nat.   (* / ? # *)

(** [_splitnetloc(url, 2)[0]] on the text after the two slashes. *)
Fixpoint splitnetloc (s : string) : string :=
  match s with
  | String c s' => if is_netloc_delim c then EmptyString else String c (splitnetloc s')
  | EmptyString => EmptyString
  end.

Definition isascii (s : string) : bool :=
  string_forallb (fun c => (nat_of_ascii c <? 128)%nat) s.

Section Netloc.

(** [_check_bracketed_netloc]: the message of the [ValueError] it raises
    when [ipaddress] rejects the host between the brackets. *)
Variable check_bracketed_netloc : string -> option string.

(** [_checknetloc] on a netloc that is not ASCII: the message of the
    [ValueError] it raises when the NFKC form of the netloc has one of the
    characters [/?#@:]. *)
Variable checknetloc : string -> option string.

(** The checks of [urlsplit] on the netloc it has split off. *)
Definition check_netloc (netloc : string) : Result string :=
  let lb := contains "[" netloc in
  let rb := contains "]" netloc in
  if lb && negb rb || rb && negb lb then Raise (ValueError "Invalid IPv6 URL")
  else
    match (if lb && rb then check_bracketed_netloc netloc else None) with
    | Some msg => Raise (ValueError msg)
    | None =>
        match (if isascii netloc then None else checknetloc netloc) with
        | Some msg => Raise (ValueError msg)
        | None => Ok netloc
        end
    end.

(** The [netloc] component of [urlsplit(url)]. *)
Definition urlsplit_netloc (url : string) : Result string :=
  let url := remove_unsafe (lstrip url) in
  let url := strip_scheme url in
  match url with
  | String "/" (String "/" rest) => check_netloc (splitnetloc rest)
  | _ => Ok EmptyString
  end.

End Netloc.

(** A scheme that [urlsplit] recognises: a letter, then [scheme_chars]. *)
Definition is_scheme (s : string) : bool :=
  match s with
  | String c0 _ => is_ascii_alpha c0 && string_forallb is_scheme_char s
  | EmptyString => false
  end.

(** An authority as it can stand in a URL: up to the first [/], [?] or
    [#], and free of the bytes [urlsplit] deletes. *)
Definition is_authority (s : string) : bool :=
  string_forallb (fun c => negb (is_netloc_delim c) && negb (is_unsafe_byte c)) s.

(** What follows the authority: nothing, or a path, query or fragment. *)
Definition is_path_query_fragment (s : string) : bool :=
  match s with
  | String c _ => is_netloc_delim c
  | EmptyString => true
  end.

Definition starts_with_slashes (s : string) : bool :=
  match s with
  | String "/" (String "/" _) => true
  | _ => false
  end.

(** A text that does not begin with a blank or a control character. *)
Definition no_leading_blank (s : string) : bool :=
  match s with
  | String c _ => negb (is_c0_control_or_space c)
  | EmptyString => true
  end.

End Urllib.

(** ** The dictionary [self.domainStats] *)

(** The inner dictionary [{'up': _, 'total': _}]. *)
Record Stats : Type := { up : Z; total : Z }.

(** A Python [dict] keeps its keys in insertion order: [store] is the
    table, [keys] the order in which the keys were first inserted. *)
Record pydict : Type := { store : gmap string Stats; keys : list string }.

Definition dict_empty : pydict := {| store := ∅; keys := [] |}.

(** [lambda: {'up': 0, 'total': 0}] *)
Definition default_factory : Stats := {| up := 0; total := 0 |}.

(** [d[k]] on a [defaultdict]: a missing key is first inserted with a fresh
    default value. *)
Definition getitem (k : string) (d : pydict) : Stats * pydict :=
  match store d !! k with
  | Some s => (s, d)
  | None =>
      (default_factory,
       {| store := <[k := default_factory]> (store d); keys := keys d ++ [k] |})
  end.

(** Assignment to a field of the inner dictionary stored under [k]; the
    outer dictionary holds the only reference to it. *)
Definition set_inner (k : string) (f : Stats -> Stats) (d : pydict) : pydict :=
  {| store := alter f k (store d); keys := keys d |}.

(** [d.items()] *)
Definition items (d : pydict) : list (string * Stats) :=
  omap (fun k => (fun s => (k, s)) <$> store d !! k) (keys d).

(** [d[k]['total'] += 1] *)
Definition incr_total (k : string) (d : pydict) : pydict :=
  set_inner k (fun s => {| up := up s; total := total s + 1 |}) (getitem k d).2.

(** [d[k]['up'] += 1] *)
Definition incr_up (k : string) (d : pydict) : pydict :=
  set_inner k (fun s => {| up := up s + 1; total := total s |}) (getitem k d).2.

(** ** Endpoints, the network and the state of the process *)

(** One endpoint as [checkEndpoint] sees it.  [url] is a required key.
    [method] is [None] when the dictionary has no usable method: the key
    is missing, or it is present with a null value.  [headers] and [body]
    are [None] when the key is missing or null. *)
Record Endpoint : Type := {
  url : string;
  method : option string;
  headers : option (list (string * string));
  body : option string
}.

#[local] Instance Endpoint_eq_dec : EqDecision Endpoint.
Proof. solve_decision. Defined.

(** The key ['method'] of an entry of the YAML file: not there, there
    with a null value ([method:] with nothing after it), or there with a
    string. *)
Inductive MethodKey : Type :=
  | Absent
  | Null
  | Given (m : string).

(** One mapping of the YAML file, as [yaml.safe_load] returns it. *)
Record ConfigEntry : Type := {
  cfg_url : string;
  cfg_method : MethodKey;
  cfg_headers : option (list (string * string));
  cfg_body : option string
}.

(** The arguments of [session.request] ([timeout] is the constant
    [ClientTimeout(total=5)]). *)
Record Request : Type := {
  req_method : string;
  req_url : string;
  req_headers : list (string * string);
  req_data : option string
}.

(** What [async with session.request(...) as response] does: either the
    body of the [with] runs, [response.status] being [status] and line 49
    computing [elapsed_ms], or an exception is raised. *)
Inductive Reply : Type :=
  | Response (status : Z) (elapsed_ms : float)
  | Failure (e : exn).

Definition Session : Type := Request -> Reply.

(** The fields of the [EPM] object and the two output streams; an element
    of a stream is the text of one [print] call. *)
Record World : Type := {
  endpoints : list Endpoint;
  domainStats : pydict;
  running : bool;
  stdout : list string;
  stderr : list string
}.

(** [EPM.__init__] *)
Definition init : World :=
  {| endpoints := []; domainStats := dict_empty; running := true;
     stdout := []; stderr := [] |}.

Definition set_domainStats (f : pydict -> pydict) (w : World) : World :=
  {| endpoints := endpoints w; domainStats := f (domainStats w);
     running := running w; stdout := stdout w; stderr := stderr w |}.

Definition set_running (b : bool) (w : World) : World :=
  {| endpoints := endpoints w; domainStats := domainStats w;
     running := b; stdout := stdout w; stderr := stderr w |}.

Definition set_endpoints (l : list Endpoint) (w : World) : World :=
  {| endpoints := l; domainStats := domainStats w;
     running := running w; stdout := stdout w; stderr := stderr w |}.

(** [print(line)].  A [print] that fails (a stream that is closed or
    cannot encode the text) is outside the model. *)
Definition put_stdout (line : string) (w : World) : World :=
  {| endpoints := endpoints w; domainStats := domainStats w;
     running := running w; stdout := stdout w ++ [line]; stderr := stderr w |}.

Definition put_stderr (line : string) (w : World) : World :=
  {| endpoints := endpoints w; domainStats := domainStats w;
     running := running w; stdout := stdout w; stderr := stderr w ++ [line] |}.

(** ** The monad of the methods: state and exceptions *)

Definition M (A : Type) : Type := World -> Result A * World.

Definition ret {A} (a : A) : M A := fun w => (Ok a, w).

Definition bind {A B} (m : M A) (k : A -> M B) : M B :=
  fun w =>
    match m w with
    | (Ok a, w') => k a w'
    | (Raise e, w') => (Raise e, w')
    end.

Definition raise {A} (e : exn) : M A := fun w => (Raise e, w).

(** [try: body except Exception as e: handler]; the handler starts from the
    state the body had reached. *)
Definition try_except {A} (body : M A) (handler : exn -> M A) : M A :=
  fun w =>
    match body w with
    | (Ok a, w') => (Ok a, w')
    | (Raise e, w') => handler e w'
    end.

Definition lift {A} (r : Result A) : M A := fun w => (r, w).

Definition modify (f : World -> World) : M unit := fun w => (Ok tt, f w).

Definition gets {A} (f : World -> A) : M A := fun w => (Ok (f w), w).

Declare Scope py_scope.
Delimit Scope py_scope with py.
Notation "'let*' x ':=' c1 'in' c2" := (bind c1 (fun x => c2))
  (at level 10, x name, c1 at level 100, c2 at level 200) : py_scope.
Notation "c1 >> c2" := (bind c1 (fun _ => c2))
  (at level 90, right associativity) : py_scope.
Local Open Scope py_scope.

(** [for x in l: f x] *)
Fixpoint for_each {A} (l : list A) (f : A -> M unit) : M unit :=
  match l with
  | [] => ret tt
  | x :: l' => f x >> for_each l' f
  end.

(** ** The methods of [EPM] *)

Section Monitor.

Variable check_bracketed_netloc : string -> option string.
Variable checknetloc : string -> option string.

(** [urlparse(url).netloc] *)
Definition getDomain (url : string) : M string :=
  lift (Urllib.urlsplit_netloc check_bracketed_netloc checknetloc url).

(** [endpoint['method']] as an argument of [session.request]: a missing
    key raises [KeyError]; a null method makes [session.request] raise
    before anything is sent.  Both happen inside the [try], where the
    handler does not look at the exception. *)
Definition endpoint_method (endpoint : Endpoint) : M string :=
  match method endpoint with
  | Some m => ret m
  | None => raise (KeyError "method")
  end.

(** [async with session.request(...) as response] *)
Definition request (session : Session) (rq : Request) : M (Z * float) :=
  match session rq with
  | Response status elapsed_ms => ret (status, elapsed_ms)
  | Failure e => raise e
  end.

(** Line 52: [200 <= response.status < 300 and elapsed_ms < 500]. *)
Definition isUP (status : Z) (elapsed_ms : float) : bool :=
  (200 <=? status) && (status <? 300) && ltb_int elapsed_ms 500.

(** [checkEndpoint].  The two readings of the clock are part of the reply:
    [elapsed_ms] is the value line 49 computes.  [getDomain] is called
    before the [try], everything else inside it. *)
Definition checkEndpoint (session : Session) (endpoint : Endpoint) : M unit :=
  let* domain := getDomain (url endpoint) in
  try_except
    (let headers := default [] (headers endpoint) in
     let data := body endpoint in
     let* method := endpoint_method endpoint in
     let* response :=
       request session
         {| req_method := method; req_url := url endpoint;
            req_headers := headers; req_data := data |} in
     let '(status, elapsed_ms) := response in
     let isUP := isUP status elapsed_ms in
     modify (set_domainStats (incr_total domain)) >>
     if isUP then modify (set_domainStats (incr_up domain)) else ret tt)
    (fun e => modify (set_domainStats (incr_total domain))).

(** The text of the f-string of line 68. *)
Definition availability_line (domain : string) (availability : Z) : string :=
  domain +:+ " has " +:+ pretty availability +:+ "% availability percentage".

(** [printAvailability] *)
Definition printAvailability : M unit :=
  let* stats_items := gets (fun w => items (domainStats w)) in
  for_each stats_items (fun '(domain, stats) =>
    if 0 <? total stats then
      let* quotient := lift (int_true_div (100 * up stats) (total stats)) in
      let availability := round quotient in
      modify (put_stdout (availability_line domain availability))
    else ret tt).

(** One cycle.  The model is exact for a cycle in which every URL has a
    domain.  When a [getDomain] raises, the cycle raises, no report is
    printed and [run] exits; the counters such a cycle leaves behind depend
    on what the scheduler does with the probes still in flight, which is
    not modelled.  The coroutines run one at a time and are switched only
    at an [await]; [checkEndpoint] has none between reading and writing
    the counters, so the probes take effect one after the other, in the
    order [probes] in which their replies arrive.  [probes] pairs every
    endpoint of the cycle with the behaviour of the network for it. *)
Definition monitorCycle (probes : list (Session * Endpoint)) : M unit :=
  for_each probes (fun '(session, endpoint) => checkEndpoint session endpoint) >>
  printAvailability.

(** [handleInterrupt] *)
Definition handleInterrupt : M unit :=
  modify (put_stdout "
!!! SHUTTING DOWN !!!") >>
  modify (set_running false).

(** [loadConfig].  [yaml] is the list of mappings [yaml.safe_load]
    returns, or the exception raised by opening or parsing the file or by
    the [for] loop over a document that is not a list of mappings (an
    empty file loads as [None]).  The loop tests the presence of the key:
    an entry without ['method'] gets ['GET'], an entry whose key is there
    keeps its value, null included. *)
Definition loadConfig (yaml : Result (list ConfigEntry)) : M unit :=
  let* loaded := lift yaml in
  modify (set_endpoints
    (map (fun entry =>
            {| url := cfg_url entry;
               method := match cfg_method entry with
                         | Absent => Some "GET"
                         | Null => None
                         | Given m => Some m
                         end;
               headers := cfg_headers entry; body := cfg_body entry |})
       loaded)).

(** *** [run]

    The loop of [run] is cut at its [await]s.  Between two of them the
    code runs without interruption; SIGINT may be delivered at any of
    them, and then runs [handleInterrupt]. *)

(** Where the coroutine [run] stands. *)
Inductive pc : Type :=
  | Init (yaml : Result (list ConfigEntry))
                                           (* handler installed, config not yet loaded *)
  | LoopHead                               (* about to test [self.running] *)
  | Probing (pending : list (Session * Endpoint))
                                           (* in [monitorCycle], replies outstanding *)
  | CycleDone                              (* [monitorCycle] returned *)
  | Sleeping                               (* in [asyncio.sleep(15)] *)
  | Exited (status : Z).

(** What the environment does next: deliver SIGINT, or let the program
    run to its next [await].  At the head of the loop [Resume] carries
    the probes of the cycle that starts, in the order of their replies:
    the configured endpoints in some order, each with the behaviour of the
    network for it.  A [Resume] with other probes is not a possible move
    there and changes nothing. *)
Inductive input : Type :=
  | Sigint
  | Resume (probes : list (Session * Endpoint)).

Inductive event : Type :=
  | EvConfigLoaded
  | EvCycleBegin
  | EvProbeDone
  | EvReport
  | EvSleepBegin
  | EvSleepEnd
  | EvInterrupt
  | EvLoopExit
  | EvFatal.

(** [str(x)] in the handler of [run]. *)
Definition exn_str (e : exn) : string :=
  match e with
  | ValueError msg => msg
  | KeyError key => "'" +:+ key +:+ "'"
  | ZeroDivisionError => "division by zero"
  | OverflowError => "integer division result too large for a float"
  | TimeoutError => ""
  | ClientConnectorError msg => msg
  | ClientConnectorDNSError msg => msg
  | ClientResponseError msg => msg
  | OtherException _ msg => msg
  end.

(** [except Exception as x] of [run]: the message goes to stderr and the
    process exits with status 1. *)
Definition fatal (e : exn) (w : World) : pc * World :=
  (Exited 1, put_stderr ("Error: " +:+ exn_str e) w).

(** A step of [run] that may raise: [next] is where the step leads when
    it returns. *)
Definition guarded (m : M unit) (next : pc) (ev : event) (w : World)
  : pc * World * list event :=
  match m w with
  | (Ok _, w') => (next, w', [ev])
  | (Raise e, w') => (fatal e w', [EvFatal])
  end.

Definition step (i : input) (c : pc * World) : pc * World * list event :=
  let '(p, w) := c in
  match p, i with
  | Exited _, _ => (p, w, [])
  | _, Sigint => guarded handleInterrupt p EvInterrupt w
  | Init yaml, Resume _ => guarded (loadConfig yaml) LoopHead EvConfigLoaded w
  | LoopHead, Resume probes =>
      if running w then
        if bool_decide (probes.*2 ≡ₚ endpoints w)
        then (Probing probes, w, [EvCycleBegin])
        else (LoopHead, w, [])
      else (Exited 0, w, [EvLoopExit])
  | Probing ((session, endpoint) :: rest), Resume _ =>
      guarded (checkEndpoint session endpoint) (Probing rest) EvProbeDone w
  | Probing [], Resume _ => guarded printAvailability CycleDone EvReport w
  | CycleDone, Resume _ => (Sleeping, w, [EvSleepBegin])
  | Sleeping, Resume _ => (LoopHead, w, [EvSleepEnd])
  end.

(** The run of the process under a sequence of inputs, with its trace. *)
Fixpoint exec (inputs : list input) (c : pc * World) : pc * World * list event :=
  match inputs with
  | [] => (c, [])
  | i :: inputs' =>
      let '(c1, t1) := step i c in
      let '(c2, t2) := exec inputs' c1 in
      (c2, t1 ++ t2)
  end.

End Monitor.

(** ** The aggregator in the words of the specification

    [record] and [report] are the two operations the specification gives
    the aggregator; [app.py] has no such functions, its code is compared
    with them below. *)

Module Spec.

Record ProbeOutcome : Type := { domain : string; success : bool }.

Definition bump (success : bool) (s : Stats) : Stats :=
  {| up := up s + (if success then 1 else 0); total := total s + 1 |}.

Definition record (o : ProbeOutcome) (d : pydict) : pydict :=
  match store d !! domain o with
  | Some s =>
      {| store := <[domain o := bump (success o) s]> (store d); keys := keys d |}
  | None =>
      {| store := <[domain o := bump (success o) default_factory]> (store d);
         keys := keys d ++ [domain o] |}
  end.

Definition percentage (s : Stats) : option Z :=
  if 0 <? total s then
    match int_true_div (100 * up s) (total s) with
    | Ok q => Some (round q)
    | Raise _ => None
    end
  else None.

Definition report (d : pydict) : list (string * Z) :=
  omap (fun '(k, s) => (fun p => (k, p)) <$> percentage s) (items d).

End Spec.

(** The counters of a domain, [{0, 0}] when it has no entry yet. *)
Definition entry (d : pydict) (k : string) : Stats :=
  default default_factory (store d !! k).

(** The outcome of one probe as lines 39 to 61 decide it: UP when the
    request is answered and line 52 holds, DOWN when anything is raised. *)
Definition probe_success (session : Session) (endpoint : Endpoint) : bool :=
  match method endpoint with
  | Some m =>
      match session {| req_method := m; req_url := url endpoint;
                       req_headers := default [] (headers endpoint);
                       req_data := body endpoint |} with
      | Response status elapsed_ms => isUP status elapsed_ms
      | Failure _ => false
      end
  | None => false
  end.

(** The keys of a dictionary are its insertion order: no key twice, and a
    key is listed exactly when it has a value. *)
Definition dict_wf (d : pydict) : Prop :=
  NoDup (keys d) /\ forall k, k ∈ keys d <-> is_Some (store d !! k).

(** The probe as the aggregator sees it: its domain and whether it was
    UP, or the exception of [getDomain]. *)
Definition probe_outcome (check_bracketed_netloc checknetloc : string -> option string)
    (p : Session * Endpoint) : Result Spec.ProbeOutcome :=
  match Urllib.urlsplit_netloc check_bracketed_netloc checknetloc (url p.2) with
  | Ok d => Ok {| Spec.domain := d; Spec.success := probe_success p.1 p.2 |}
  | Raise e => Raise e
  end.

(** Outcomes applied one after the other. *)
Definition record_all (os : list Spec.ProbeOutcome) (d : pydict) : pydict :=
  foldl (fun d o => Spec.record o d) d os.

(** Several [print] calls in a row. *)
Definition put_lines (ls : list string) (w : World) : World :=
  {| endpoints := endpoints w; domainStats := domainStats w;
     running := running w; stdout := stdout w ++ ls; stderr := stderr w |}.

(** The invariant of the counters. *)
Definition stats_ok (s : Stats) : Prop := 0 <= up s <= total s /\ 1 <= total s.

Definition dict_inv (d : pydict) : Prop :=
  dict_wf d /\ map_Forall (fun _ s => stats_ok s) (store d).

(** [p] is [n / d] rounded to the nearest integer, a tie going to the
    even neighbour. *)
Definition nearest_even (n d p : Z) : Prop :=
  2 * Z.abs (n - p * d) <= d /\ (2 * Z.abs (n - p * d) = d -> Z.even p = true).

(** What the report needs of the counters. *)
Definition counters_ok (d : pydict) : Prop :=
  dict_wf d /\ map_Forall (fun _ s => 0 <= up s <= total s) (store d).

(** The line of one report entry. *)
Definition report_line (e : string * Z) : string := availability_line e.1 e.2.

(** Two dictionaries with the same table, their keys in possibly
    different orders. *)
Definition dict_equiv (d d' : pydict) : Prop :=
  store d = store d' /\ keys d ≡ₚ keys d'.

(** The three probes of the example of the specification: domain A
    answers in time, domain B times out, domain A answers 503. *)
Definition example_probes : list (Session * Endpoint) :=
  [ (fun _ => Response 200 (Float 100 0),
     {| url := "https://a.example/health"; method := Some "GET";
        headers := None; body := None |});
    (fun _ => Failure TimeoutError,
     {| url := "https://b.example/"; method := Some "GET";
        headers := None; body := None |});
    (fun _ => Response 503 (Float 50 0),
     {| url := "https://a.example/login"; method := Some "POST";
        headers := None; body := Some "{}" |}) ].

(** A computation that neither reads nor writes [self.running]. *)
Definition ignores_running {A} (m : M A) : Prop :=
  forall b w, m (set_running b w) = ((m w).1, set_running b (m w).2).

(** In a trace, a sleep that begins after an interrupt. *)
Definition sleeps_after_interrupt (t : list event) : Prop :=
  exists t1 t2 t3, t = t1 ++ EvInterrupt :: t2 ++ EvSleepBegin :: t3.

(** Concrete values for the examples below. *)

(** Library checks that accept every netloc they are asked about. *)
Definition accept_all : string -> option string := fun _ => None.

Definition get (u : string) : Endpoint :=
  {| url := u; method := Some "GET"; headers := None; body := None |}.

Definition answers (status : Z) (elapsed_ms : Z) : Session :=
  fun _ => Response status (Float elapsed_ms 0).

Definition times_out : Session := fun _ => Failure TimeoutError.

Definition refuses : Session :=
  fun _ => Failure (ClientConnectorError "Cannot connect to host").

(** A world with a domain that was never probed next to one probed
    twice. *)
Definition idle_world : World :=
  {| endpoints := [];
     domainStats :=
       {| store := <["idle.example" := {| up := 0; total := 0 |}]>
                     (<["a.example" := {| up := 1; total := 2 |}]> ∅);
          keys := ["idle.example"; "a.example"] |};
     running := true; stdout := []; stderr := [] |}.

(** Start-up, one cycle with one probe, and a SIGINT while the reply of
    the probe is outstanding. *)
Definition interrupted_run : list input :=
  [ Resume [];
    Resume [(answers 200 100, get "https://example.com/health")];
    Sigint;
    Resume []; Resume []; Resume []; Resume []; Resume [] ].

(** ** Notions for the properties of the whole monitor *)

(** The strings of [ds] that are not in [seen], each once, in the order
    of their first occurrence. *)
Fixpoint first_seen (seen ds : list string) : list string :=
  match ds with
  | [] => []
  | k :: ds' =>
      if decide (k ∈ seen) then first_seen seen ds'
      else k :: first_seen (k :: seen) ds'
  end.

(** How many of the outcomes belong to domain [k], and how many of those
    are UP. *)
Definition probes_of (k : string) (os : list Spec.ProbeOutcome) : Z :=
  Z.of_nat (length (filter (fun o => Spec.domain o = k) os)).

Definition ups_of (k : string) (os : list Spec.ProbeOutcome) : Z :=
  Z.of_nat (length (filter (fun o => Spec.domain o = k /\ Spec.success o = true) os)).

(** No entry is lost and no counter goes down from [d] to [d']. *)
Definition stats_le (d d' : pydict) : Prop :=
  forall k s, store d !! k = Some s ->
    exists s', store d' !! k = Some s' /\ up s <= up s' /\ total s <= total s'.

(** The request the configuration file describes for an entry: its method
    or [GET], its URL, its headers or none, its body or none. *)
Definition request_for (c : ConfigEntry) : Request :=
  {| req_method := match cfg_method c with Given m => m | _ => "GET" end;
     req_url := cfg_url c;
     req_headers := default [] (cfg_headers c); req_data := cfg_body c |}.

(** The text of [handleInterrupt]'s [print]. *)
Definition shutdown_notice : string := "
!!! SHUTTING DOWN !!!".

(** A result that differs from the world [w] by lines appended to
    stdout, and that is a normal return or an [OverflowError]. *)
Definition only_prints (w : World) (r : Result unit * World) : Prop :=
  (r.1 = Ok tt \/ r.1 = Raise OverflowError) /\
  endpoints r.2 = endpoints w /\ domainStats r.2 = domainStats w /\
  running r.2 = running w /\ stderr r.2 = stderr w /\
  exists ls, stdout r.2 = stdout w ++ ls.

(** What the streams and the trace show of how the process stands: while
    it runs, stderr is empty and a cleared flag has its interrupt in the
    trace; once it has exited, either the status is 0, after an interrupt
    and with nothing on stderr, or it is 1, after an exception whose line
    is all there is on stderr. *)
Definition run_inv (c : pc * World) (t : list event) : Prop :=
  match c.1 with
  | Exited n =>
      (n = 0 /\ EvInterrupt ∈ t /\ stderr c.2 = []) \/
      (n = 1 /\ EvFatal ∈ t /\ exists e, stderr c.2 = ["Error: " +:+ exn_str e])
  | _ => stderr c.2 = [] /\ (running c.2 = false -> EvInterrupt ∈ t)
  end.

(** A monitor without endpoints that has done nothing but print shutdown
    notices. *)
Definition idle_inv (c : pc * World) : Prop :=
  endpoints c.2 = [] /\ domainStats c.2 = dict_empty /\ stderr c.2 = [] /\
  Forall (fun line => line = shutdown_notice) (stdout c.2) /\
  (c.1 = Init (Ok []) \/ c.1 = LoopHead \/ c.1 = Probing [] \/
   c.1 = CycleDone \/ c.1 = Sleeping \/ c.1 = Exited 0).

(** The outcomes of [example_probes]. *)
Definition example_outcomes : list Spec.ProbeOutcome :=
  [ {| Spec.domain := "a.example"; Spec.success := true |};
    {| Spec.domain := "b.example"; Spec.success := false |};
    {| Spec.domain := "a.example"; Spec.success := false |} ].

(** A world whose counters are those of one cycle of [example_probes]. *)
Definition example_world : World := set_domainStats (record_all example_outcomes) init.

(** Entries of a configuration file: one that only gives a URL, and one
    whose [method:] is left empty. *)
Definition cfg (u : string) : ConfigEntry :=
  {| cfg_url := u; cfg_method := Absent; cfg_headers := None; cfg_body := None |}.

Definition cfg_null_method (u : string) : ConfigEntry :=
  {| cfg_url := u; cfg_method := Null; cfg_headers := None; cfg_body := None |}.

(** An endpoint that has no method. *)
Definition bare_entry : Endpoint :=
  {| url := "https://example.com/health"; method := None;
     headers := None; body := None |}.

(** * Properties *)

(** ** The dictionary *)

Lemma dict_wf_empty : dict_wf dict_empty.
Proof.
  split; [constructor|].
  intros k. cbn. rewrite lookup_empty, elem_of_nil. split; [tauto|].
  intros [x Hx]. discriminate.
Qed.

Lemma incr_total_record k d :
  incr_total k d = Spec.record {| Spec.domain := k; Spec.success := false |} d.
Proof.
  unfold incr_total, getitem, Spec.record, set_inner, Spec.bump; cbn.
  destruct (store d !! k) as [s|] eqn:E; cbn.
  - rewrite (alter_alt_Some _ _ _ _ E). do 3 f_equal. lia.
  - rewrite alter_insert_eq. do 3 f_equal.
Qed.

Lemma incr_up_incr_total_record k d :
  incr_up k (incr_total k d)
  = Spec.record {| Spec.domain := k; Spec.success := true |} d.
Proof.
  rewrite incr_total_record.
  unfold incr_up, getitem, Spec.record, set_inner, Spec.bump; cbn.
  destruct (store d !! k) as [s|] eqn:E; cbn;
    rewrite lookup_insert_eq; cbn; rewrite alter_insert_eq; cbn;
    do 3 f_equal; lia.
Qed.

Lemma record_lookup o d :
  store (Spec.record o d) !! Spec.domain o
  = Some (Spec.bump (Spec.success o) (entry d (Spec.domain o))).
Proof.
  unfold Spec.record, entry.
  destruct (store d !! Spec.domain o); cbn; apply lookup_insert_eq.
Qed.

Lemma record_entry k b d :
  entry (Spec.record {| Spec.domain := k; Spec.success := b |} d) k
  = Spec.bump b (entry d k).
Proof.
  pose proof (record_lookup {| Spec.domain := k; Spec.success := b |} d) as Hl.
  cbn [Spec.domain Spec.success] in Hl.
  unfold entry at 1. rewrite Hl. reflexivity.
Qed.

Lemma record_lookup_ne o d k :
  k <> Spec.domain o -> store (Spec.record o d) !! k = store d !! k.
Proof.
  intros Hne. unfold Spec.record.
  destruct (store d !! Spec.domain o); cbn; apply lookup_insert_ne; congruence.
Qed.

Lemma record_keys o d :
  keys (Spec.record o d)
  = match store d !! Spec.domain o with
    | Some _ => keys d
    | None => keys d ++ [Spec.domain o]
    end.
Proof. unfold Spec.record. destruct (store d !! Spec.domain o); reflexivity. Qed.

Lemma record_wf o d : dict_wf d -> dict_wf (Spec.record o d).
Proof.
  intros [Hnd Hk]. unfold Spec.record.
  destruct (store d !! Spec.domain o) as [s|] eqn:E; split; cbn.
  - exact Hnd.
  - intros k. rewrite Hk. destruct (decide (k = Spec.domain o)) as [->|Hne].
    + rewrite lookup_insert_eq, E. split; eauto.
    + rewrite lookup_insert_ne by congruence. reflexivity.
  - apply NoDup_app. split; [exact Hnd|]. split; [|apply NoDup_singleton].
    intros k Hin ->%list_elem_of_singleton.
    apply Hk in Hin. rewrite E in Hin. destruct Hin; discriminate.
  - intros k. rewrite elem_of_app, list_elem_of_singleton, Hk.
    destruct (decide (k = Spec.domain o)) as [->|Hne].
    + rewrite lookup_insert_eq. split; eauto.
    + rewrite lookup_insert_ne by congruence. split; [intros [H|H]|]; tauto.
Qed.

(** ** Floats *)

Example true_div_third : int_true_div 1 3 = Ok (Float 6004799503160661 (-54)).
Proof. vm_compute. reflexivity. Qed.

Example true_div_half : int_true_div (100 * 1) 2 = Ok (Float 7036874417766400 (-47)).
Proof. vm_compute. reflexivity. Qed.

Example round_ties_to_even :
  (round (Float 25 (-1)), round (Float 75 (-1)), round (Float 1 (-1))) = (12, 38, 0).
Proof. vm_compute. reflexivity. Qed.

Lemma ltb_int_spec x n : ltb_int x n = true <-> (to_Q x < inject_Z n)%Q.
Proof.
  unfold ltb_int, to_Q, Qlt. destruct (0 <=? Fexp x) eqn:E; cbn.
  - rewrite Z.ltb_lt. lia.
  - rewrite Z.ltb_lt. apply Z.leb_gt in E.
    rewrite Z2Pos.id by (apply Z.pow_pos_nonneg; lia). lia.
Qed.

(** ** One probe *)

Section ProbeFacts.

Variable check_bracketed_netloc : string -> option string.
Variable checknetloc : string -> option string.

Local Abbreviation netloc := (Urllib.urlsplit_netloc check_bracketed_netloc checknetloc).
Local Abbreviation checkEndpoint := (checkEndpoint check_bracketed_netloc checknetloc).

  (** What [checkEndpoint] does, in one equation: a URL that [urlparse]
      rejects raises before the [try]; otherwise the outcome of the probe is
      recorded under the domain and [None] is returned. *)
Lemma checkEndpoint_run session endpoint w :
    checkEndpoint session endpoint w =
    match netloc (url endpoint) with
    | Ok d =>
        (Ok tt,
         set_domainStats
           (Spec.record {| Spec.domain := d;
                           Spec.success := probe_success session endpoint |}) w)
    | Raise e => (Raise e, w)
    end.
Proof.
    unfold checkEndpoint, getDomain, lift, bind, try_except,
      endpoint_method, request, probe_success, modify, raise, ret.
    destruct (netloc (url endpoint)) as [d|e]; [|reflexivity].
    destruct (method endpoint) as [m|]; cbn.
    - destruct (session _) as [status elapsed_ms|e]; cbn.
      + destruct (isUP status elapsed_ms); cbn; unfold set_domainStats; cbn;
          do 2 f_equal; [apply incr_up_incr_total_record|apply incr_total_record].
      + unfold set_domainStats; cbn. do 2 f_equal. apply incr_total_record.
    - unfold set_domainStats; cbn. do 2 f_equal. apply incr_total_record.
Qed.

Lemma isUP_spec status elapsed_ms :
    isUP status elapsed_ms = true
    <-> 200 <= status < 300 /\ (to_Q elapsed_ms < inject_Z 500)%Q.
Proof.
    unfold isUP. rewrite !andb_true_iff, Z.leb_le, Z.ltb_lt, ltb_int_spec. tauto.
Qed.

(** X. For an endpoint whose URL has a domain [d], the probe counts as UP
    (the [up] counter of [d] goes up by one) if and only if the request
    was answered with a status in [[200, 300)] and [elapsed_ms] below 500;
    in every other case (any exception, another status, a slow answer) it
    counts as DOWN: [up] is unchanged.  Either way [total] goes up by
    one. *)
Theorem checkEndpoint_up_iff session endpoint w d :
  netloc (url endpoint) = Ok d ->
  let before := entry (domainStats w) d in
  let after := entry (domainStats (checkEndpoint session endpoint w).2) d in
  (up after = up before + 1
   <-> exists m status elapsed_ms,
         method endpoint = Some m /\
         session {| req_method := m; req_url := url endpoint;
                    req_headers := default [] (headers endpoint);
                    req_data := body endpoint |}
         = Response status elapsed_ms /\
         200 <= status < 300 /\ (to_Q elapsed_ms < inject_Z 500)%Q) /\
  (up after = up before \/ up after = up before + 1) /\
  total after = total before + 1.
Proof.
  intros Hd before after. subst before after.
  rewrite checkEndpoint_run, Hd.
  unfold set_domainStats; cbn [snd domainStats]. rewrite record_entry.
  set (s := entry (domainStats w) d).
  unfold probe_success, Spec.bump.
  destruct (method endpoint) as [m|]; cbn.
  - destruct (session _) as [status elapsed_ms|e] eqn:Es; cbn.
    + destruct (isUP status elapsed_ms) eqn:Eup.
      * split; [|lia]. split; [|lia]. intros _.
        exists m, status, elapsed_ms. split; [reflexivity|]. split; [exact Es|].
        apply isUP_spec, Eup.
      * split; [|lia]. split; [lia|].
        intros (m' & st & el & Hm & Hs & Hup). exfalso.
        injection Hm as <-. rewrite Es in Hs. injection Hs as <- <-.
        apply isUP_spec in Hup. congruence.
    + split; [|lia]. split; [lia|].
      intros (m' & st & el & Hm & Hs & _). exfalso.
      injection Hm as <-. rewrite Es in Hs. discriminate.
  - split; [|lia]. split; [lia|].
    intros (m' & st & el & Hm & _). discriminate.
Qed.

(** X. When [urlparse] accepts the URL of the endpoint,
    [checkEndpoint] returns normally whatever the network does, and every
    exception of the request (timeout, refused connection, DNS error,
    malformed response, ...) is counted as one DOWN probe of the same
    domain: [total] goes up by one, [up] does not move. *)
Theorem checkEndpoint_absorbs_failures session endpoint w d :
  netloc (url endpoint) = Ok d ->
  exists w',
    checkEndpoint session endpoint w = (Ok tt, w') /\
    forall m e,
      method endpoint = Some m ->
      session {| req_method := m; req_url := url endpoint;
                 req_headers := default [] (headers endpoint);
                 req_data := body endpoint |} = Failure e ->
      domainStats w'
      = Spec.record {| Spec.domain := d; Spec.success := false |} (domainStats w).
Proof.
  intros Hd. rewrite checkEndpoint_run, Hd. eexists. split; [reflexivity|].
  intros m e Hm Hs. cbn. unfold probe_success. rewrite Hm, Hs. reflexivity.
Qed.

(** A URL that [urlparse] rejects makes [checkEndpoint] raise: [getDomain]
    is called before the [try]. *)
Lemma checkEndpoint_raises session endpoint w e :
  netloc (url endpoint) = Raise e ->
  checkEndpoint session endpoint w = (Raise e, w).
Proof. intros He. rewrite checkEndpoint_run, He. reflexivity. Qed.

(** C3. A probe adds exactly 1 to [total] of its domain, and 1 to [up] of
    that domain exactly when it was UP; a domain without an entry gets one
    that starts from [{up: 0, total: 0}]; the entry of every other domain
    is left as it was. *)
Theorem checkEndpoint_counts session endpoint w d :
  netloc (url endpoint) = Ok d ->
  let d0 := domainStats w in
  let d1 := domainStats (checkEndpoint session endpoint w).2 in
  let n := if probe_success session endpoint then 1 else 0 in
  (forall s, store d0 !! d = Some s ->
             store d1 !! d = Some {| up := up s + n; total := total s + 1 |}) /\
  (store d0 !! d = None ->
   store d1 !! d = Some {| up := 0 + n; total := 0 + 1 |}) /\
  (forall k, k <> d -> store d1 !! k = store d0 !! k).
Proof.
  intros Hd d0 d1 n. subst d0 d1 n.
  rewrite checkEndpoint_run, Hd. cbn.
  pose proof (record_lookup
    {| Spec.domain := d; Spec.success := probe_success session endpoint |}
    (domainStats w)) as Hl. cbn in Hl.
  split; [|split].
  - intros s Hs. rewrite Hl. unfold entry. rewrite Hs. reflexivity.
  - intros Hs. rewrite Hl. unfold entry. rewrite Hs. reflexivity.
  - intros k Hk. apply record_lookup_ne. exact Hk.
Qed.

(** C7, amended. [checkEndpoint] writes to the shared dictionary itself:
    it returns [None], and the world it leaves differs from the one it
    found exactly by the outcome of the probe recorded in
    [self.domainStats] (which is never the dictionary it found); the
    endpoints, the [running] flag and the output streams are untouched. *)
Theorem checkEndpoint_records_in_place session endpoint w d :
  netloc (url endpoint) = Ok d ->
  let o := {| Spec.domain := d; Spec.success := probe_success session endpoint |} in
  checkEndpoint session endpoint w
  = (Ok tt,
     {| endpoints := endpoints w;
        domainStats := Spec.record o (domainStats w);
        running := running w; stdout := stdout w; stderr := stderr w |}) /\
  Spec.record o (domainStats w) <> domainStats w.
Proof.
  intros Hd o. rewrite checkEndpoint_run, Hd. split; [reflexivity|].
  intros Heq.
  pose proof (record_lookup o (domainStats w)) as Hl. rewrite Heq in Hl.
  unfold entry in Hl. cbn in Hl.
  destruct (store (domainStats w) !! d) as [s|]; [|discriminate].
  cbn in Hl. injection Hl as Hl. apply (f_equal total) in Hl. cbn in Hl. lia.
Qed.

End ProbeFacts.

(** ** Division and rounding *)

Lemma ilog2_ratio_le a b :
  0 < a -> 0 < b -> a <= 100 * b -> ilog2_ratio a b <= 6.
Proof.
  intros Ha Hb Hab. unfold ilog2_ratio.
  assert (Hk : Z.log2 a - Z.log2 b <= 7).
  { assert (Z.log2 a <= Z.log2 (b * 2 ^ 7)) by (apply Z.log2_le_mono; lia).
    rewrite Z.log2_mul_pow2 in H by lia. lia. }
  set (k := Z.log2 a - Z.log2 b) in *. clearbody k.
  destruct (a * 2 ^ Z.max 0 (- k) <? b * 2 ^ Z.max 0 k) eqn:E; [lia|].
  apply Z.ltb_ge in E.
  destruct (decide (k = 7)) as [Hk7|]; [|lia].
  replace (Z.max 0 k) with 7 in E by lia.
  replace (Z.max 0 (- k)) with 0 in E by lia.
  change (2 ^ 7) with 128 in E. change (2 ^ 0) with 1 in E. lia.
Qed.

(** The quotient of the report never raises on counters that satisfy the
    invariant. *)
Lemma int_true_div_ok u t :
  0 <= u <= t -> 1 <= t -> exists q, int_true_div (100 * u) t = Ok q.
Proof.
  intros Hu Ht. unfold int_true_div.
  destruct (t =? 0) eqn:E0; [apply Z.eqb_eq in E0; lia|].
  destruct (100 * u =? 0) eqn:E1; [eauto|].
  apply Z.eqb_neq in E1.
  pose proof (ilog2_ratio_le (Z.abs (100 * u)) (Z.abs t)) as Hl.
  set (e := Z.max (ilog2_ratio (Z.abs (100 * u)) (Z.abs t) - 52) (-1074)).
  assert (He : e < 0) by (subst e; lia).
  destruct (0 <=? e) eqn:E2; [apply Z.leb_le in E2; lia|].
  cbn. eauto.
Qed.

(** ** Invariants of the dictionary *)

Lemma record_inv o d : dict_inv d -> dict_inv (Spec.record o d).
Proof.
  intros [Hwf Hst]. split; [apply record_wf, Hwf|].
  intros k s Hs. destruct (decide (k = Spec.domain o)) as [->|Hne].
  - rewrite record_lookup in Hs. injection Hs as <-.
    assert (Hb : 0 <= up (entry d (Spec.domain o)) <= total (entry d (Spec.domain o))
                 /\ 0 <= total (entry d (Spec.domain o))).
    { unfold entry. destruct (store d !! Spec.domain o) as [s|] eqn:E; cbn; [|lia].
      destruct (Hst _ _ E) as [? ?]. lia. }
    unfold stats_ok, Spec.bump. cbn. destruct (Spec.success o); lia.
  - rewrite record_lookup_ne in Hs by exact Hne. exact (Hst _ _ Hs).
Qed.

Lemma dict_inv_empty : dict_inv dict_empty.
Proof. split; [apply dict_wf_empty|]. intros k s Hs. cbn in Hs. rewrite lookup_empty in Hs. discriminate. Qed.

Lemma items_elem d k s : dict_wf d -> (k, s) ∈ items d <-> store d !! k = Some s.
Proof.
  intros [_ Hk]. unfold items. rewrite list_elem_of_omap. split.
  - intros (k' & _ & Hx). destruct (store d !! k') as [s'|] eqn:E; [|discriminate].
    cbn in Hx. injection Hx as <- <-. exact E.
  - intros Hs. exists k. split; [apply Hk; eauto|]. rewrite Hs. reflexivity.
Qed.

Lemma dict_inv_counters_ok d : dict_inv d -> counters_ok d.
Proof.
  intros [Hwf Hst]. split; [exact Hwf|].
  intros k s Hs. destruct (Hst k s Hs) as [? _]. assumption.
Qed.

(** ** The report *)

Lemma put_lines_cons line ls w :
  put_lines ls (put_stdout line w) = put_lines (line :: ls) w.
Proof. unfold put_lines, put_stdout; cbn. f_equal. rewrite <- app_assoc. reflexivity. Qed.

Lemma percentage_Some s :
  0 <= up s <= total s -> 0 < total s ->
  exists q, int_true_div (100 * up s) (total s) = Ok q
            /\ Spec.percentage s = Some (round q).
Proof.
  intros Hu Ht. destruct (int_true_div_ok (up s) (total s)) as [q Hq]; [lia..|].
  exists q. split; [exact Hq|]. unfold Spec.percentage.
  rewrite (proj2 (Z.ltb_lt _ _) Ht), Hq. reflexivity.
Qed.

Lemma percentage_None s : total s <= 0 -> Spec.percentage s = None.
Proof.
  intros Ht. unfold Spec.percentage. destruct (0 <? total s) eqn:E; [|reflexivity].
  apply Z.ltb_lt in E. lia.
Qed.

(** The loop of [printAvailability] over any list of items. *)
Lemma print_items l w :
  Forall (fun e => 0 <= up e.2 <= total e.2) l ->
  for_each l (fun '(domain, stats) =>
    if 0 <? total stats then
      let* quotient := lift (int_true_div (100 * up stats) (total stats)) in
      let availability := round quotient in
      modify (put_stdout (availability_line domain availability))
    else ret tt) w
  = (Ok tt,
     put_lines
       (report_line <$> omap (fun '(k, s) => (fun p => (k, p)) <$> Spec.percentage s) l)
       w).
Proof.
  intros Hl. revert w. induction Hl as [|[k s] l Hs Hl IH]; intros w.
  - cbn. unfold ret, put_lines. destruct w; cbn. rewrite app_nil_r. reflexivity.
  - cbn [for_each omap list_omap]. unfold bind at 1. cbn in Hs.
    destruct (0 <? total s) eqn:E.
    + apply Z.ltb_lt in E. destruct (percentage_Some s Hs E) as (q & Hq & Hp).
      rewrite Hp. cbn [fmap option_fmap option_map].
      unfold bind at 1, lift. rewrite Hq. unfold modify.
      rewrite IH. cbn [fmap list_fmap]. rewrite put_lines_cons. reflexivity.
    + apply Z.ltb_ge in E. rewrite (percentage_None s E). cbn.
      unfold ret. apply IH.
Qed.

Lemma items_counters d :
  counters_ok d -> Forall (fun e => 0 <= up e.2 <= total e.2) (items d).
Proof.
  intros [Hwf Hst]. apply Forall_forall. intros [k s] Hin.
  apply items_elem in Hin; [|exact Hwf]. exact (Hst k s Hin).
Qed.

Lemma printAvailability_run w :
  counters_ok (domainStats w) ->
  printAvailability w
  = (Ok tt, put_lines (report_line <$> Spec.report (domainStats w)) w).
Proof.
  intros Hc. unfold printAvailability, bind at 1, gets.
  apply print_items, items_counters, Hc.
Qed.

(** The report follows the order of the keys. *)
Lemma report_keys d :
  Spec.report d
  = omap (fun k => match store d !! k with
                   | Some s => (fun p => (k, p)) <$> Spec.percentage s
                   | None => None
                   end) (keys d).
Proof.
  unfold Spec.report, items. induction (keys d) as [|k l IH]; [reflexivity|].
  cbn. destruct (store d !! k) as [s|]; cbn; [|exact IH].
  destruct (Spec.percentage s); cbn; rewrite IH; reflexivity.
Qed.

Lemma report_sublist d : (Spec.report d).*1 `sublist_of` keys d.
Proof.
  rewrite report_keys. induction (keys d) as [|k l IH]; [constructor|].
  cbn. destruct (store d !! k) as [s|]; cbn.
  - destruct (Spec.percentage s); cbn.
    + apply sublist_skip, IH.
    + apply sublist_cons, IH.
  - apply sublist_cons, IH.
Qed.

Lemma report_elem d k p :
  dict_wf d ->
  (k, p) ∈ Spec.report d
  <-> exists s, store d !! k = Some s /\ Spec.percentage s = Some p.
Proof.
  intros Hwf. unfold Spec.report. rewrite list_elem_of_omap. split.
  - intros ([k' s] & Hin & Hx). apply items_elem in Hin; [|exact Hwf].
    destruct (Spec.percentage s) as [p'|] eqn:E; [|discriminate].
    cbn in Hx. injection Hx as <- <-. eauto.
  - intros (s & Hs & Hp). exists (k, s). split; [apply items_elem; assumption|].
    rewrite Hp. reflexivity.
Qed.

(** ** Rounding to the nearest integer, ties to even *)

Lemma rne_div_nearest n d : 0 < d -> nearest_even n d (rne_div n d).
Proof.
  intros Hd. unfold nearest_even, rne_div.
  pose proof (Z.div_mod n d ltac:(lia)) as Hdm.
  pose proof (Z.mod_pos_bound n d Hd) as Hr.
  set (q := n `div` d) in *. set (r := n `mod` d) in *. clearbody q r.
  destruct (2 * r ?= d) eqn:E.
  - apply Z.compare_eq in E. destruct (Z.even q) eqn:Eq.
    + split; [lia|]. intros _. exact Eq.
    + split; [lia|]. intros _. rewrite Z.even_add, Eq. reflexivity.
  - rewrite Z.compare_lt_iff in E. split; lia.
  - rewrite Z.compare_gt_iff in E. split; lia.
Qed.

Lemma nearest_even_unique n d p p' :
  0 < d -> nearest_even n d p -> nearest_even n d p' -> p = p'.
Proof.
  intros Hd [Hp Hpe] [Hp' Hpe'].
  assert (Hclose : p' = p \/ p' = p + 1 \/ p' = p - 1) by nia.
  destruct Hclose as [->| [-> | ->]]; [reflexivity| |].
  - assert (2 * Z.abs (n - p * d) = d) as H1 by nia.
    assert (2 * Z.abs (n - (p + 1) * d) = d) as H2 by nia.
    specialize (Hpe H1). specialize (Hpe' H2).
    rewrite Z.even_add, Hpe in Hpe'. discriminate.
  - assert (2 * Z.abs (n - p * d) = d) as H1 by nia.
    assert (2 * Z.abs (n - (p - 1) * d) = d) as H2 by nia.
    specialize (Hpe H1). specialize (Hpe' H2).
    rewrite Z.even_sub, Hpe in Hpe'. discriminate.
Qed.

(** Rounding first to a multiple of [1/K] and then to an integer gives
    the integer nearest to [a / b], as long as [b < K]. *)
Lemma rne_div_twice a b K :
  0 < b -> b < K -> Z.even K = true ->
  rne_div (rne_div (a * K) b) K = rne_div a b.
Proof.
  intros Hb HK Heven.
  pose proof (rne_div_nearest a b Hb) as Hp.
  pose proof (rne_div_nearest (a * K) b Hb) as Hm.
  set (p := rne_div a b) in *. set (m := rne_div (a * K) b) in *. clearbody p m.
  apply (nearest_even_unique m K); [lia|apply rne_div_nearest; lia|].
  destruct Hp as [Hp Hpe]. destruct Hm as [Hm _].
  apply Z.even_spec in Heven. destruct Heven as [K' ->].
  unfold nearest_even.
  set (x := a - p * b) in *. set (y := a * (2 * K') - m * b) in *.
  assert (Hz : b * (m - p * (2 * K')) = 2 * K' * x - y) by (subst x y; ring).
  set (z := m - p * (2 * K')) in *. clearbody x y z.
  destruct (decide (2 * Z.abs x = b)) as [Htie|Hstrict].
  - assert (Hy : y = 0).
    { assert (Hy' : exists c, y = b * c).
      { destruct (decide (0 <= x)); [exists (K' - z)|exists (- K' - z)]; nia. }
      destruct Hy' as [c ->].
      destruct (decide (c = 0)) as [->|Hc]; [lia|]. exfalso.
      assert (b * 1 <= b * Z.abs c) by (apply Z.mul_le_mono_nonneg_l; lia).
      rewrite Z.abs_mul in Hm. lia. }
    subst y. assert (2 * Z.abs z = 2 * K') by nia.
    split; [lia|]. intros _. apply Hpe. exact Htie.
  - assert (2 * Z.abs x <= b - 1) by lia.
    assert (Hlt : b * (2 * Z.abs z) < b * (2 * K')) by nia.
    apply Z.mul_lt_mono_pos_l in Hlt; [|exact Hb].
    split; lia.
Qed.

(** Below [2 ^ 46] probes of a domain the float quotient loses nothing:
    the percentage is the exact ratio rounded half to even. *)
Lemma availability_exact u t q :
  0 <= u <= t -> 1 <= t < 2 ^ 46 ->
  int_true_div (100 * u) t = Ok q -> round q = rne_div (100 * u) t.
Proof.
  intros Hu Ht. unfold int_true_div.
  destruct (t =? 0) eqn:E0; [apply Z.eqb_eq in E0; lia|].
  destruct (100 * u =? 0) eqn:E1.
  - apply Z.eqb_eq in E1. rewrite E1. intros [= <-].
    unfold round, rne_div. cbn [Fexp Fnum].
    rewrite Z.div_0_l, Z.mod_0_l by lia. cbn.
    destruct t; try lia. reflexivity.
  - apply Z.eqb_neq in E1.
    pose proof (ilog2_ratio_le (Z.abs (100 * u)) (Z.abs t)) as Hl.
    set (e := Z.max (ilog2_ratio (Z.abs (100 * u)) (Z.abs t) - 52) (-1074)).
    assert (He : -1074 <= e <= -46) by (subst e; lia).
    clearbody e.
    destruct (0 <=? e) eqn:E2; [apply Z.leb_le in E2; lia|].
    cbn [andb]. intros [= <-]. unfold round. cbn [Fexp Fnum]. rewrite E2.
    replace (Z.max 0 e) with 0 by lia.
    replace (Z.max 0 (- e)) with (- e) by lia.
    rewrite Z.abs_eq, Z.abs_eq by lia.
    replace (Z.sgn (100 * u) * Z.sgn t) with 1 by lia.
    rewrite Z.pow_0_r, Z.mul_1_r, Z.mul_1_l.
    apply rne_div_twice; [lia| |].
    + assert (2 ^ 46 <= 2 ^ (- e)) by (apply Z.pow_le_mono_r; lia). lia.
    + replace (- e) with (Z.succ (- e - 1)) by lia.
      rewrite Z.pow_succ_r by lia. rewrite Z.even_mul. reflexivity.
Qed.

(** C5. On a well-formed dictionary, [printAvailability] prints exactly
    the lines of the report, in the order of the keys: one line
    [<domain> has <percentage>% availability percentage] for every domain
    whose [total] is positive, none for a domain whose [total] is 0, no
    domain twice.  The percentage is [round(100 * up / total)], the float
    quotient rounded to the nearest integer with ties to even; as long as
    [total] is below [2 ^ 46] this is the exact ratio rounded half to
    even. *)
Theorem printAvailability_report w :
  counters_ok (domainStats w) ->
  let d := domainStats w in
  let rep := Spec.report d in
  printAvailability w = (Ok tt, put_lines (report_line <$> rep) w) /\
  NoDup rep.*1 /\
  (forall k, k ∈ rep.*1 <-> exists s, store d !! k = Some s /\ 0 < total s) /\
  (forall k p, (k, p) ∈ rep ->
     report_line (k, p) = k +:+ " has " +:+ pretty p +:+ "% availability percentage" /\
     exists s q,
       store d !! k = Some s /\
       int_true_div (100 * up s) (total s) = Ok q /\
       p = round q /\
       (total s < 2 ^ 46 -> nearest_even (100 * up s) (total s) p)).
Proof.
  intros Hc d rep. subst d rep. split; [apply printAvailability_run, Hc|].
  destruct Hc as [Hwf Hst].
  split; [|split].
  - eapply sublist_NoDup; [apply Hwf|apply report_sublist].
  - intros k. rewrite list_elem_of_fmap. split.
    + intros ([k' p] & -> & Hin). apply report_elem in Hin; [|exact Hwf].
      destruct Hin as (s & Hs & Hp). exists s. split; [exact Hs|].
      unfold Spec.percentage in Hp.
      destruct (0 <? total s) eqn:E; [|discriminate]. apply Z.ltb_lt, E.
    + intros (s & Hs & Ht).
      destruct (percentage_Some s (Hst k s Hs) Ht) as (q & _ & Hp).
      exists (k, round q). split; [reflexivity|].
      apply report_elem; [exact Hwf|]. eauto.
  - intros k p Hin. split; [reflexivity|].
    apply report_elem in Hin; [|exact Hwf]. destruct Hin as (s & Hs & Hp).
    assert (Ht : 0 < total s).
    { unfold Spec.percentage in Hp.
      destruct (0 <? total s) eqn:E; [|discriminate]. apply Z.ltb_lt, E. }
    destruct (percentage_Some s (Hst k s Hs) Ht) as (q & Hq & Hp').
    rewrite Hp in Hp'. injection Hp' as ->.
    exists s, q. split; [exact Hs|]. split; [exact Hq|]. split; [reflexivity|].
    intros Hsmall.
    rewrite (availability_exact (up s) (total s) q (Hst k s Hs) ltac:(lia) Hq).
    apply rne_div_nearest. exact Ht.
Qed.

(** ** Accumulation does not depend on the order *)

Lemma record_store o d :
  store (Spec.record o d)
  = <[Spec.domain o := Spec.bump (Spec.success o) (entry d (Spec.domain o))]> (store d).
Proof. unfold Spec.record, entry. destruct (store d !! Spec.domain o); reflexivity. Qed.

Lemma record_keys_app o d :
  keys (Spec.record o d)
  = keys d ++ match store d !! Spec.domain o with
              | Some _ => []
              | None => [Spec.domain o]
              end.
Proof.
  rewrite record_keys. destruct (store d !! Spec.domain o); [|reflexivity].
  rewrite app_nil_r. reflexivity.
Qed.

Lemma dict_equiv_refl d : dict_equiv d d.
Proof. split; reflexivity. Qed.

Lemma dict_equiv_trans d1 d2 d3 :
  dict_equiv d1 d2 -> dict_equiv d2 d3 -> dict_equiv d1 d3.
Proof. intros [H1 H2] [H3 H4]. split; [congruence|]. etransitivity; eassumption. Qed.

Lemma record_equiv o d d' :
  dict_equiv d d' -> dict_equiv (Spec.record o d) (Spec.record o d').
Proof.
  intros [Hs Hk]. split.
  - rewrite !record_store. unfold entry. rewrite Hs. reflexivity.
  - rewrite !record_keys_app, Hs, Hk. reflexivity.
Qed.

Lemma record_all_equiv os d d' :
  dict_equiv d d' -> dict_equiv (record_all os d) (record_all os d').
Proof.
  revert d d'. induction os as [|o os IH]; intros d d' H; [exact H|].
  cbn. apply IH, record_equiv, H.
Qed.

Lemma record_swap o1 o2 d :
  dict_equiv (Spec.record o1 (Spec.record o2 d)) (Spec.record o2 (Spec.record o1 d)).
Proof.
  destruct (decide (Spec.domain o1 = Spec.domain o2)) as [Heq|Hne]; split.
  - rewrite !record_store. unfold entry. rewrite !record_store, Heq.
    rewrite !lookup_insert_eq, !insert_insert_eq. cbn.
    unfold Spec.bump; cbn. do 2 f_equal; lia.
  - rewrite !record_keys_app, !record_store, Heq, !lookup_insert_eq.
    rewrite !app_nil_r. reflexivity.
  - rewrite !record_store. unfold entry. rewrite !record_store.
    rewrite !lookup_insert_ne by congruence.
    apply insert_insert_ne. congruence.
  - rewrite !record_keys_app, !record_store.
    rewrite !lookup_insert_ne by congruence.
    rewrite <- !app_assoc. apply Permutation_app_head, Permutation_app_comm.
Qed.

Lemma record_all_Permutation os1 os2 d :
  os1 ≡ₚ os2 -> dict_equiv (record_all os1 d) (record_all os2 d).
Proof.
  intros Hp. revert d. induction Hp as [|o os1 os2 _ IH|o1 o2 os|os1 os2 os3 _ IH1 _ IH2];
    intros d.
  - apply dict_equiv_refl.
  - cbn. apply IH.
  - cbn. apply record_all_equiv, record_swap.
  - eapply dict_equiv_trans; [apply IH1|apply IH2].
Qed.

Lemma report_equiv d d' : dict_equiv d d' -> Spec.report d ≡ₚ Spec.report d'.
Proof.
  intros [Hs Hk]. rewrite !report_keys, Hs. apply omap_Permutation, Hk.
Qed.

(** ** One cycle, and the loop *)

Section CycleFacts.

Variable check_bracketed_netloc : string -> option string.
Variable checknetloc : string -> option string.

Local Abbreviation netloc := (Urllib.urlsplit_netloc check_bracketed_netloc checknetloc).
Local Abbreviation checkEndpoint := (checkEndpoint check_bracketed_netloc checknetloc).
Local Abbreviation monitorCycle := (monitorCycle check_bracketed_netloc checknetloc).
Local Abbreviation probe_outcome := (probe_outcome check_bracketed_netloc checknetloc).
Local Abbreviation step := (step check_bracketed_netloc checknetloc).
Local Abbreviation exec := (exec check_bracketed_netloc checknetloc).

Lemma set_domainStats_id w : set_domainStats (record_all []) w = w.
Proof. destruct w; reflexivity. Qed.

(** The probes of a cycle whose URLs all have a domain: their outcomes
    are recorded one after the other. *)
Lemma probes_run probes os w :
  Forall2 (fun p o => probe_outcome p = Ok o) probes os ->
  for_each probes (fun '(session, endpoint) => checkEndpoint session endpoint) w
  = (Ok tt, set_domainStats (record_all os) w).
Proof.
  intros H. revert w. induction H as [|[session endpoint] o probes os Ho _ IH]; intros w.
  - cbn. unfold ret. rewrite set_domainStats_id. reflexivity.
  - cbn [for_each]. unfold bind at 1. rewrite checkEndpoint_run.
    unfold probe_outcome in Ho. cbn [fst snd] in Ho.
    destruct (netloc (url endpoint)) as [d|e]; [|discriminate].
    injection Ho as <-. rewrite IH. reflexivity.
Qed.

Lemma checkEndpoint_inv session endpoint w :
  dict_inv (domainStats w) ->
  dict_inv (domainStats (checkEndpoint session endpoint w).2).
Proof.
  intros H. rewrite checkEndpoint_run.
  destruct (netloc (url endpoint)); [|exact H]. apply record_inv, H.
Qed.

Lemma printAvailability_domainStats w :
  dict_inv (domainStats w) ->
  domainStats (printAvailability w).2 = domainStats w
  /\ running (printAvailability w).2 = running w.
Proof.
  intros H. rewrite printAvailability_run by (apply dict_inv_counters_ok, H).
  split; reflexivity.
Qed.

Lemma loadConfig_domainStats yaml w :
  domainStats (loadConfig yaml w).2 = domainStats w
  /\ running (loadConfig yaml w).2 = running w.
Proof. unfold loadConfig, bind, lift. destruct yaml; split; reflexivity. Qed.

Lemma guarded_world (m : M unit) next ev w :
  domainStats (guarded m next ev w).1.2 = domainStats (m w).2
  /\ running (guarded m next ev w).1.2 = running (m w).2.
Proof. unfold guarded. destruct (m w) as [[[]|e] w']; split; reflexivity. Qed.

Lemma step_inv i p w :
  dict_inv (domainStats w) -> dict_inv (domainStats (step i (p, w)).1.2).
Proof.
  intros H. unfold step.
  destruct p as [yaml| |[|[session endpoint] rest]| | |n], i as [|probes];
    rewrite ?(proj1 (guarded_world _ _ _ _)); try exact H.
  - rewrite (proj1 (loadConfig_domainStats _ _)). exact H.
  - destruct (running w); [destruct (bool_decide _)|]; exact H.
  - rewrite (proj1 (printAvailability_domainStats _ H)). exact H.
  - apply checkEndpoint_inv, H.
Qed.

Lemma exec_inv inputs c :
  dict_inv (domainStats c.2) -> dict_inv (domainStats (exec inputs c).1.2).
Proof.
  revert c. induction inputs as [|i inputs IH]; intros [p w] H; [exact H|].
  cbn [exec].
  pose proof (step_inv i p w H) as H1.
  destruct (step i (p, w)) as [c1 t1]. specialize (IH c1 H1).
  destruct (exec inputs c1) as [c2 t2]. exact IH.
Qed.

(** C4. Whatever the process has been through since [__init__] (any
    configuration, any probes with any replies in any order, any reports
    and interrupts), every entry of [domainStats] has non-negative
    counters with [up <= total]. *)
Theorem up_le_total_invariant yaml inputs :
  map_Forall (fun _ s => 0 <= up s /\ 0 <= total s /\ up s <= total s)
    (store (domainStats (exec inputs (Init yaml, init)).1.2)).
Proof.
  pose proof (exec_inv inputs (Init yaml, init) dict_inv_empty) as [_ H].
  intros k s Hs. destruct (H k s Hs) as [? ?]. lia.
Qed.

(** C10. In every reachable state each entry of [domainStats] has
    [total >= 1]; so for every item the report iterates over, the guard
    [total > 0] holds, the division is defined, and [printAvailability]
    prints one line per key without raising. *)
Theorem entries_have_positive_total yaml inputs :
  let w := (exec inputs (Init yaml, init)).1.2 in
  map_Forall (fun _ s => 1 <= total s) (store (domainStats w)) /\
  (forall k s, (k, s) ∈ items (domainStats w) ->
     (0 <? total s) = true /\
     total s <> 0 /\
     exists q, int_true_div (100 * up s) (total s) = Ok q) /\
  exists w',
    printAvailability w = (Ok tt, w') /\
    length (stdout w') = (length (stdout w) + length (keys (domainStats w)))%nat.
Proof.
  intros w. subst w.
  pose proof (exec_inv inputs (Init yaml, init) dict_inv_empty) as Hinv.
  set (w := (exec inputs (Init yaml, init)).1.2) in *. clearbody w.
  pose proof Hinv as [Hwf Hst].
  split; [|split].
  - intros k s Hs. destruct (Hst k s Hs) as [_ ?]. assumption.
  - intros k s Hin. apply items_elem in Hin; [|exact Hwf].
    destruct (Hst k s Hin) as [Hu Ht].
    split; [apply Z.ltb_lt; lia|]. split; [lia|].
    apply int_true_div_ok; assumption.
  - eexists. split; [apply printAvailability_run, dict_inv_counters_ok, Hinv|].
    cbn. rewrite length_app, length_fmap. f_equal.
    rewrite report_keys. destruct Hwf as [_ Hk].
    assert (Hall : Forall (fun k => k ∈ keys (domainStats w)) (keys (domainStats w)))
      by (apply Forall_forall; auto).
    induction Hall as [|k l Hin _ IH]; [reflexivity|].
    cbn. apply Hk in Hin. destruct Hin as [s Hs]. rewrite Hs.
    destruct (Hst k s Hs) as [Hu Ht].
    destruct (percentage_Some s Hu ltac:(lia)) as (q & _ & ->). cbn.
    f_equal. exact IH.
Qed.

End CycleFacts.

(** ** The domain of a URL *)

Section UrlFacts.

Import Urllib.

Variable check_bracketed_netloc : string -> option string.
Variable checknetloc : string -> option string.

Local Abbreviation check_netloc := (check_netloc check_bracketed_netloc checknetloc).
Local Abbreviation urlsplit_netloc := (urlsplit_netloc check_bracketed_netloc checknetloc).
Local Abbreviation getDomain := (getDomain check_bracketed_netloc checknetloc).

Lemma scheme_char_facts c :
  is_scheme_char c = true ->
  is_unsafe_byte c = false /\ Ascii.eqb c ":" = false.
Proof.
  destruct c as [[] [] [] [] [] [] [] []]; vm_compute; intros H;
    try discriminate H; split; reflexivity.
Qed.

Lemma alpha_not_space c : is_ascii_alpha c = true -> is_c0_control_or_space c = false.
Proof.
  destruct c as [[] [] [] [] [] [] [] []]; vm_compute; intros H;
    try discriminate H; reflexivity.
Qed.

Lemma delim_not_unsafe c : is_netloc_delim c = true -> is_unsafe_byte c = false.
Proof.
  destruct c as [[] [] [] [] [] [] [] []]; vm_compute; intros H;
    try discriminate H; reflexivity.
Qed.

Lemma remove_unsafe_app s1 s2 :
  remove_unsafe (s1 +:+ s2) = remove_unsafe s1 +:+ remove_unsafe s2.
Proof.
  induction s1 as [|c s1 IH]; [reflexivity|]. simpl.
  destruct (is_unsafe_byte c); simpl; rewrite IH; reflexivity.
Qed.

Lemma remove_unsafe_scheme s :
  string_forallb is_scheme_char s = true -> remove_unsafe s = s.
Proof.
  induction s as [|c s IH]; [reflexivity|]. cbn. intros [Hc Hs]%andb_true_iff.
  destruct (scheme_char_facts c Hc) as [-> _]. rewrite IH by exact Hs. reflexivity.
Qed.

Lemma remove_unsafe_authority s : is_authority s = true -> remove_unsafe s = s.
Proof.
  induction s as [|c s IH]; [reflexivity|]. cbn.
  intros [[_ Hc]%andb_true_iff Hs]%andb_true_iff.
  apply negb_true_iff in Hc. rewrite Hc, (IH Hs). reflexivity.
Qed.

Lemma partition_at_scheme s r :
  string_forallb is_scheme_char s = true ->
  partition_at ":" (s +:+ String ":" r) = Some (s, r).
Proof.
  induction s as [|c s IH]; [reflexivity|].
  simpl. intros [Hc Hs]%andb_true_iff.
  destruct (scheme_char_facts c Hc) as [_ ->]. rewrite (IH Hs). reflexivity.
Qed.

Lemma strip_scheme_scheme s r :
  is_scheme s = true -> strip_scheme (s +:+ String ":" r) = r.
Proof.
  intros Hs. unfold strip_scheme.
  destruct s as [|c0 s]; [discriminate|].
  pose proof Hs as [_ Hall]%andb_true_iff.
  rewrite (partition_at_scheme (String c0 s) r Hall).
  unfold is_scheme in Hs. rewrite Hs. reflexivity.
Qed.

Lemma splitnetloc_authority a r :
  is_authority a = true -> is_path_query_fragment r = true ->
  splitnetloc (a +:+ r) = a.
Proof.
  intros Ha Hr. induction a as [|c a IH].
  - simpl. destruct r as [|c r]; [reflexivity|]. simpl in *. rewrite Hr. reflexivity.
  - simpl in *. apply andb_true_iff in Ha as [[Hc _]%andb_true_iff Ha].
    apply negb_true_iff in Hc. rewrite Hc, (IH Ha). reflexivity.
Qed.

Lemma remove_unsafe_rest r :
  is_path_query_fragment r = true -> is_path_query_fragment (remove_unsafe r) = true.
Proof.
  destruct r as [|c r]; [reflexivity|]. simpl. intros Hc.
  rewrite (delim_not_unsafe c Hc). exact Hc.
Qed.

(** The netloc of [scheme://authority] followed by a path, query or
    fragment is the authority, as far as it passes the checks. *)
Lemma urlsplit_netloc_authority scheme authority rest :
  is_scheme scheme = true ->
  is_authority authority = true ->
  is_path_query_fragment rest = true ->
  urlsplit_netloc (scheme +:+ "://" +:+ authority +:+ rest) = check_netloc authority.
Proof.
  intros Hs Ha Hr. unfold urlsplit_netloc.
  assert (Hl : lstrip (scheme +:+ "://" +:+ authority +:+ rest)
               = scheme +:+ "://" +:+ authority +:+ rest).
  { destruct scheme as [|c0 s]; [discriminate|]. simpl.
    apply andb_true_iff in Hs as [Hc0 _]. rewrite (alpha_not_space c0 Hc0). reflexivity. }
  rewrite Hl, !remove_unsafe_app.
  rewrite remove_unsafe_scheme, (remove_unsafe_authority authority Ha).
  2:{ destruct scheme; [discriminate|]. apply andb_true_iff in Hs as [_ Hs]. exact Hs. }
  change (remove_unsafe "://") with "://".
  change ("://" +:+ authority +:+ remove_unsafe rest)
    with (String ":" ("//" +:+ authority +:+ remove_unsafe rest)).
  rewrite (strip_scheme_scheme scheme _ Hs). simpl.
  change ("" +:+ authority +:+ remove_unsafe rest)
    with (authority +:+ remove_unsafe rest).
  rewrite (splitnetloc_authority authority _ Ha (remove_unsafe_rest rest Hr)).
  reflexivity.
Qed.

Lemma urlsplit_netloc_no_slashes url :
  starts_with_slashes (strip_scheme (remove_unsafe (lstrip url))) = false ->
  urlsplit_netloc url = Ok "".
Proof.
  unfold urlsplit_netloc, starts_with_slashes.
  destruct (strip_scheme (remove_unsafe (lstrip url))) as [|c1 [|c2 r]];
    [reflexivity| |].
  - destruct c1 as [[] [] [] [] [] [] [] []]; reflexivity.
  - destruct c1 as [[] [] [] [] [] [] [] []]; try reflexivity.
    destruct c2 as [[] [] [] [] [] [] [] []]; try reflexivity.
    discriminate.
Qed.

Lemma remove_unsafe_id s :
  string_existsb is_unsafe_byte s = false -> remove_unsafe s = s.
Proof.
  induction s as [|c s IH]; [reflexivity|]. simpl.
  intros [Hc Hs]%orb_false_iff. rewrite Hc, (IH Hs). reflexivity.
Qed.

Lemma lstrip_id s : no_leading_blank s = true -> lstrip s = s.
Proof.
  destruct s as [|c s]; [reflexivity|]. simpl.
  intros Hc%negb_true_iff. rewrite Hc. reflexivity.
Qed.

Lemma partition_at_absent c s : contains c s = false -> partition_at c s = None.
Proof.
  induction s as [|x s IH]; [reflexivity|]. simpl.
  intros [Hx Hs]%orb_false_iff. rewrite Ascii.eqb_sym, Hx, (IH Hs). reflexivity.
Qed.

(** C6, amended. The domain of [scheme://authority] followed by nothing
    or by a path, query or fragment, for an ASCII authority without square
    brackets, is the authority as it is written (user information if any,
    host and port, but not the scheme), whatever follows it.  When the
    authority has a square bracket without its partner there is no domain:
    [getDomain] raises [ValueError].  A URL with a scheme that is not
    followed by [//], and a URL with neither a colon nor a leading [//],
    have the empty domain. *)
Theorem getDomain_is_authority :
  (forall scheme authority rest w,
     is_scheme scheme = true ->
     is_authority authority = true ->
     is_path_query_fragment rest = true ->
     contains "[" authority = false -> contains "]" authority = false ->
     isascii authority = true ->
     getDomain (scheme +:+ "://" +:+ authority +:+ rest) w = (Ok authority, w)) /\
  (forall scheme authority rest w,
     is_scheme scheme = true ->
     is_authority authority = true ->
     is_path_query_fragment rest = true ->
     contains "[" authority <> contains "]" authority ->
     getDomain (scheme +:+ "://" +:+ authority +:+ rest) w
     = (Raise (ValueError "Invalid IPv6 URL"), w)) /\
  (forall scheme rest w,
     is_scheme scheme = true ->
     string_existsb is_unsafe_byte rest = false ->
     starts_with_slashes rest = false ->
     getDomain (scheme +:+ ":" +:+ rest) w = (Ok "", w)) /\
  (forall url w,
     contains ":" url = false ->
     string_existsb is_unsafe_byte url = false ->
     no_leading_blank url = true ->
     starts_with_slashes url = false ->
     getDomain url w = (Ok "", w)).
Proof.
  split; [|split; [|split]].
  - intros scheme authority rest w Hs Ha Hr Hl Hrb Hascii. unfold getDomain, lift.
    rewrite (urlsplit_netloc_authority scheme authority rest Hs Ha Hr).
    unfold check_netloc. rewrite Hl, Hrb, Hascii. reflexivity.
  - intros scheme authority rest w Hs Ha Hr Hne. unfold getDomain, lift.
    rewrite (urlsplit_netloc_authority scheme authority rest Hs Ha Hr).
    unfold check_netloc.
    destruct (contains "[" authority), (contains "]" authority);
      try reflexivity; congruence.
  - intros scheme rest w Hs Hu Hsl. unfold getDomain, lift.
    rewrite urlsplit_netloc_no_slashes; [reflexivity|].
    assert (Hl : lstrip (scheme +:+ ":" +:+ rest) = scheme +:+ ":" +:+ rest).
    { destruct scheme as [|c0 s0]; [discriminate|]. simpl.
      apply andb_true_iff in Hs as [Hc0 _]. rewrite (alpha_not_space c0 Hc0). reflexivity. }
    rewrite Hl, !remove_unsafe_app, remove_unsafe_scheme, (remove_unsafe_id rest Hu).
    2:{ destruct scheme; [discriminate|]. apply andb_true_iff in Hs as [_ Hs]. exact Hs. }
    change (remove_unsafe ":") with ":".
    change (":" +:+ rest) with (String ":" rest).
    rewrite (strip_scheme_scheme scheme rest Hs). exact Hsl.
  - intros url w Hc Hu Hb Hsl. unfold getDomain, lift.
    rewrite urlsplit_netloc_no_slashes; [reflexivity|].
    rewrite (lstrip_id url Hb), (remove_unsafe_id url Hu).
    unfold strip_scheme. rewrite (partition_at_absent ":" url Hc). exact Hsl.
Qed.

End UrlFacts.

(** ** What depends on [self.running] *)

Lemma set_running_same w : set_running (running w) w = w.
Proof. destruct w; reflexivity. Qed.

Lemma ignores_running_preserves {A} (m : M A) w :
  ignores_running m -> running (m w).2 = running w.
Proof.
  intros H. specialize (H (running w) w). rewrite set_running_same in H.
  apply (f_equal snd) in H. cbn [snd] in H.
  transitivity (running (set_running (running w) (m w).2)); [|reflexivity].
  f_equal. exact H.
Qed.

Lemma ignores_ret {A} (a : A) : ignores_running (ret a).
Proof. intros b w. reflexivity. Qed.

Lemma ignores_raise {A} e : ignores_running (@raise A e).
Proof. intros b w. reflexivity. Qed.

Lemma ignores_lift {A} (r : Result A) : ignores_running (lift r).
Proof. intros b w. reflexivity. Qed.

Lemma ignores_bind {A B} (m : M A) (k : A -> M B) :
  ignores_running m -> (forall a, ignores_running (k a)) -> ignores_running (bind m k).
Proof.
  intros Hm Hk b w. unfold bind. rewrite Hm.
  destruct (m w) as [[a|e] w']; cbn; [apply Hk|reflexivity].
Qed.

Lemma ignores_try_except {A} (m : M A) (h : exn -> M A) :
  ignores_running m -> (forall e, ignores_running (h e)) ->
  ignores_running (try_except m h).
Proof.
  intros Hm Hh b w. unfold try_except. rewrite Hm.
  destruct (m w) as [[a|e] w']; cbn; [reflexivity|apply Hh].
Qed.

Lemma ignores_for_each {A} (l : list A) (f : A -> M unit) :
  (forall x, ignores_running (f x)) -> ignores_running (for_each l f).
Proof.
  intros Hf. induction l as [|x l IH]; [apply ignores_ret|].
  cbn. apply ignores_bind; [apply Hf|]. intros _. exact IH.
Qed.

Lemma ignores_printAvailability : ignores_running printAvailability.
Proof.
  unfold printAvailability. apply ignores_bind; [intros b w; reflexivity|].
  intros l. apply ignores_for_each. intros [domain stats].
  destruct (0 <? total stats); [|apply ignores_ret].
  apply ignores_bind; [apply ignores_lift|]. intros q b w. reflexivity.
Qed.

Lemma ignores_loadConfig yaml : ignores_running (loadConfig yaml).
Proof.
  unfold loadConfig. apply ignores_bind; [apply ignores_lift|].
  intros l b w. reflexivity.
Qed.

Section LoopFacts.

Variable check_bracketed_netloc : string -> option string.
Variable checknetloc : string -> option string.

Local Abbreviation checkEndpoint := (checkEndpoint check_bracketed_netloc checknetloc).
Local Abbreviation monitorCycle := (monitorCycle check_bracketed_netloc checknetloc).
Local Abbreviation probe_outcome := (probe_outcome check_bracketed_netloc checknetloc).
Local Abbreviation step := (step check_bracketed_netloc checknetloc).
Local Abbreviation exec := (exec check_bracketed_netloc checknetloc).

Lemma ignores_checkEndpoint session endpoint :
  ignores_running (checkEndpoint session endpoint).
Proof.
  intros b w. rewrite !checkEndpoint_run.
  destruct (Urllib.urlsplit_netloc _ _ _); reflexivity.
Qed.

Lemma guarded_ignores (m : M unit) next ev b w :
  ignores_running m ->
  guarded m next ev (set_running b w)
  = ((guarded m next ev w).1.1, set_running b (guarded m next ev w).1.2,
     (guarded m next ev w).2).
Proof.
  intros Hm. unfold guarded. rewrite Hm.
  destruct (m w) as [[[]|e] w']; reflexivity.
Qed.

(** A step taken with the flag cleared leaves it cleared and starts no
    cycle. *)
Lemma step_stopped i p w :
  running w = false ->
  running (step i (p, w)).1.2 = false /\ EvCycleBegin ∉ (step i (p, w)).2.
Proof.
  intros Hw. unfold step.
  assert (Hg : forall (m : M unit) next ev,
             ev <> EvCycleBegin -> running (m w).2 = false ->
             running (guarded m next ev w).1.2 = false
             /\ EvCycleBegin ∉ (guarded m next ev w).2).
  { intros m next ev Hev Hm. unfold guarded.
    destruct (m w) as [[[]|e] w']; cbn in *; (split; [exact Hm|]);
      intros Hin%list_elem_of_singleton; congruence. }
  destruct p as [yaml| |[|[session endpoint] rest]| | |n], i as [|probes];
    try (apply Hg; [discriminate|reflexivity]);
    try (split; [exact Hw|apply not_elem_of_nil]).
  - apply Hg; [discriminate|].
    rewrite ignores_running_preserves by apply ignores_loadConfig. exact Hw.
  - rewrite Hw. cbn. split; [exact Hw|].
    intros Hin%list_elem_of_singleton. discriminate.
  - apply Hg; [discriminate|].
    rewrite ignores_running_preserves by apply ignores_printAvailability. exact Hw.
  - apply Hg; [discriminate|].
    rewrite ignores_running_preserves by apply ignores_checkEndpoint. exact Hw.
  - cbn. split; [exact Hw|]. intros Hin%list_elem_of_singleton. discriminate.
  - cbn. split; [exact Hw|]. intros Hin%list_elem_of_singleton. discriminate.
Qed.

Lemma exec_stopped inputs p w :
  running w = false ->
  running (exec inputs (p, w)).1.2 = false /\ EvCycleBegin ∉ (exec inputs (p, w)).2.
Proof.
  revert p w. induction inputs as [|i inputs IH]; intros p w Hw.
  - cbn. split; [exact Hw|apply not_elem_of_nil].
  - cbn [exec].
    destruct (step_stopped i p w Hw) as [H1 H2].
    destruct (step i (p, w)) as [[p1 w1] t1]. cbn in H1, H2.
    destruct (IH p1 w1 H1) as [H3 H4].
    destruct (exec inputs (p1, w1)) as [c2 t2]. cbn in *.
    split; [exact H3|]. rewrite elem_of_app. tauto.
Qed.

(** Away from the head of the loop, a step of the program does the same
    whatever the flag is, and leaves the flag as it is. *)
Lemma step_ignores_running probes p w b :
  p <> LoopHead ->
  step (Resume probes) (p, set_running b w)
  = ((step (Resume probes) (p, w)).1.1,
     set_running b (step (Resume probes) (p, w)).1.2,
     (step (Resume probes) (p, w)).2).
Proof.
  intros Hp. unfold step.
  destruct p as [yaml| |[|[session endpoint] rest]| | |n]; try reflexivity.
  - apply guarded_ignores, ignores_loadConfig.
  - congruence.
  - apply guarded_ignores, ignores_printAvailability.
  - apply guarded_ignores, ignores_checkEndpoint.
Qed.

(** A cycle that does not raise, run to the end of the loop with the flag
    cleared: the outstanding probes complete, the report is printed, the
    sleep is taken, and the loop exits at its next test. *)
Lemma cycle_then_exit pending w w' :
  running w = false ->
  monitorCycle pending w = (Ok tt, w') ->
  exec (replicate (length pending + 4) (Resume [])) (Probing pending, w)
  = (Exited 0, w',
     replicate (length pending) EvProbeDone
       ++ [EvReport; EvSleepBegin; EvSleepEnd; EvLoopExit]).
Proof.
  revert w. induction pending as [|[session endpoint] rest IH]; intros w Hw Hc.
  - unfold monitorCycle in Hc. cbn [for_each] in Hc. unfold bind at 1, ret in Hc.
    assert (Hw' : running w' = false).
    { pose proof (ignores_running_preserves printAvailability w
                    ignores_printAvailability) as H.
      rewrite Hc in H. cbn in H. congruence. }
    cbn [length Nat.add replicate exec]. unfold step at 1. unfold guarded.
    rewrite Hc. cbn. rewrite Hw'. reflexivity.
  - unfold monitorCycle in Hc. cbn [for_each] in Hc. unfold bind at 1 2 in Hc.
    destruct (checkEndpoint session endpoint w) as [[[]|e] w1] eqn:E; [|discriminate].
    assert (Hw1 : running w1 = false).
    { pose proof (ignores_running_preserves _ w
                    (ignores_checkEndpoint session endpoint)) as H.
      rewrite E in H. cbn in H. congruence. }
    specialize (IH w1 Hw1 Hc).
    cbn [length Nat.add replicate exec]. unfold step at 1. unfold guarded.
    rewrite E. fold step. rewrite IH. reflexivity.
Qed.

(** C9, amended. A SIGINT aborts nothing: it only clears the flag, the
    program stays where it was.  The flag is read at the head of the loop
    and nowhere else.  Once it is cleared it stays cleared and no further
    cycle begins; the cycle in flight completes its outstanding probes and
    prints its report, the sleep that follows it is still taken, and the
    loop exits at its next test. *)
Theorem cancellation_is_cooperative :
  (forall p w,
     (forall n, p <> Exited n) ->
     (step Sigint (p, w)).1.1 = p /\
     running (step Sigint (p, w)).1.2 = false /\
     domainStats (step Sigint (p, w)).1.2 = domainStats w) /\
  (forall probes p w b,
     p <> LoopHead ->
     step (Resume probes) (p, set_running b w)
     = ((step (Resume probes) (p, w)).1.1,
        set_running b (step (Resume probes) (p, w)).1.2,
        (step (Resume probes) (p, w)).2)) /\
  (forall inputs p w,
     running w = false ->
     running (exec inputs (p, w)).1.2 = false /\
     EvCycleBegin ∉ (exec inputs (p, w)).2) /\
  (forall pending w w',
     running w = false ->
     monitorCycle pending w = (Ok tt, w') ->
     exec (replicate (length pending + 4) (Resume [])) (Probing pending, w)
     = (Exited 0, w',
        replicate (length pending) EvProbeDone
          ++ [EvReport; EvSleepBegin; EvSleepEnd; EvLoopExit])).
Proof.
  split; [|split; [|split]].
  - intros p w Hp. destruct p as [yaml| |[|[session endpoint] rest]| | |n];
      try (repeat split; reflexivity).
    exfalso. exact (Hp n eq_refl).
  - apply step_ignores_running.
  - apply exec_stopped.
  - apply cycle_then_exit.
Qed.

Lemma record_all_inv os d : dict_inv d -> dict_inv (record_all os d).
Proof.
  revert d. induction os as [|o os IH]; intros d H; [exact H|].
  cbn. apply IH, record_inv, H.
Qed.

(** The outcomes of probes whose URLs all have a domain. *)
Lemma probe_outcomes_exist probes :
  Forall (fun p => exists o, probe_outcome p = Ok o) probes ->
  Forall2 (fun p o => probe_outcome p = Ok o) probes
    (omap (fun p => match probe_outcome p with
                    | Ok o => Some o
                    | Raise _ => None
                    end) probes).
Proof.
  induction 1 as [|p probes [o Ho] _ IH]; [constructor|].
  cbn. rewrite Ho. constructor; assumption.
Qed.

Lemma monitorCycle_run probes os w :
  dict_inv (domainStats w) ->
  Forall2 (fun p o => probe_outcome p = Ok o) probes os ->
  monitorCycle probes w
  = (Ok tt,
     put_lines (report_line <$> Spec.report (record_all os (domainStats w)))
       (set_domainStats (record_all os) w)).
Proof.
  intros Hinv Hos. unfold monitorCycle, bind.
  rewrite (probes_run _ _ probes os w Hos).
  apply printAvailability_run. cbn.
  apply dict_inv_counters_ok, record_all_inv, Hinv.
Qed.

(** C8. Two cycles that apply the same probes in different orders leave
    the same counters for every domain and report the same percentages:
    the table of [domainStats] is the same, the report and the printed
    lines are the same up to their order.  The three probes A-up, B-down,
    A-down, in any order, leave A with [{up: 1, total: 2}], reported as
    50%, and B with [{up: 0, total: 1}], reported as 0%. *)
Theorem accumulation_commutes :
  (forall probes1 probes2 w,
     probes1 ≡ₚ probes2 ->
     dict_inv (domainStats w) ->
     Forall (fun p => exists o, probe_outcome p = Ok o) probes1 ->
     let w1 := (monitorCycle probes1 w).2 in
     let w2 := (monitorCycle probes2 w).2 in
     store (domainStats w1) = store (domainStats w2) /\
     Spec.report (domainStats w1) ≡ₚ Spec.report (domainStats w2) /\
     stdout w1 ≡ₚ stdout w2) /\
  (forall probes,
     probes ≡ₚ example_probes ->
     let w1 := (monitorCycle probes init).2 in
     store (domainStats w1)
     = {[ "a.example" := {| up := 1; total := 2 |};
          "b.example" := {| up := 0; total := 1 |} ]} /\
     Spec.report (domainStats w1) ≡ₚ [("a.example", 50); ("b.example", 0)] /\
     stdout w1 ≡ₚ [ "a.example has 50% availability percentage";
                    "b.example has 0% availability percentage" ]).
Proof.
  assert (Hgen : forall probes1 probes2 w,
    probes1 ≡ₚ probes2 ->
    dict_inv (domainStats w) ->
    Forall (fun p => exists o, probe_outcome p = Ok o) probes1 ->
    store (domainStats (monitorCycle probes1 w).2)
    = store (domainStats (monitorCycle probes2 w).2) /\
    Spec.report (domainStats (monitorCycle probes1 w).2)
    ≡ₚ Spec.report (domainStats (monitorCycle probes2 w).2) /\
    stdout (monitorCycle probes1 w).2 ≡ₚ stdout (monitorCycle probes2 w).2).
  { intros probes1 probes2 w Hp Hinv Hall.
    assert (Hall2 : Forall (fun p => exists o, probe_outcome p = Ok o) probes2).
    { apply Forall_forall. intros p Hin. rewrite <- Hp in Hin.
      revert p Hin. apply Forall_forall. exact Hall. }
    rewrite (monitorCycle_run probes1 _ w Hinv (probe_outcomes_exist _ Hall)).
    rewrite (monitorCycle_run probes2 _ w Hinv (probe_outcomes_exist _ Hall2)).
    cbn [snd put_lines set_domainStats domainStats stdout].
    pose proof (record_all_Permutation _ _ (domainStats w) (omap_Permutation
      (fun p => match probe_outcome p with Ok o => Some o | Raise _ => None end)
      _ _ Hp)) as Heq.
    pose proof (report_equiv _ _ Heq) as Hrep.
    split; [apply Heq|]. split; [exact Hrep|].
    apply Permutation_app_head, fmap_Permutation, Hrep. }
  split; [exact Hgen|].
  intros probes Hp w1. subst w1.
  assert (Hex : Forall (fun p => exists o, probe_outcome p = Ok o) example_probes).
  { repeat constructor; eexists; vm_compute; reflexivity. }
  destruct (Hgen example_probes probes init (symmetry Hp) dict_inv_empty Hex)
    as (Hs & Hr & Ho).
  rewrite <- Hs, <- Hr, <- Ho. clear.
  split; [|split].
  - apply map_eq. intros k. vm_compute. reflexivity.
  - vm_compute. reflexivity.
  - vm_compute. reflexivity.
Qed.

End LoopFacts.

(** * Examples, witnesses and counterexamples *)

(** The probes of the specification: 200 in 100 ms is UP; 200 in 600 ms,
    503 in 50 ms, a timeout and a refused connection are DOWN. *)
Example probe_examples :
  let e := get "https://example.com/health" in
  let after session :=
    store (domainStats (checkEndpoint accept_all accept_all session e init).2)
      !! "example.com" in
  after (answers 200 100) = Some {| up := 1; total := 1 |} /\
  after (answers 200 600) = Some {| up := 0; total := 1 |} /\
  after (answers 503 50) = Some {| up := 0; total := 1 |} /\
  after times_out = Some {| up := 0; total := 1 |} /\
  after refuses = Some {| up := 0; total := 1 |}.
Proof. repeat split; vm_compute; reflexivity. Qed.

Lemma checkEndpoint_up_iff_witness :
  Urllib.urlsplit_netloc accept_all accept_all (url (get "https://example.com/health"))
  = Ok "example.com" /\
  up (entry (domainStats
        (checkEndpoint accept_all accept_all (answers 200 100)
           (get "https://example.com/health") init).2) "example.com")
  = up (entry (domainStats init) "example.com") + 1.
Proof.
  split; [reflexivity|].
  apply (proj2 (proj1 (checkEndpoint_up_iff accept_all accept_all (answers 200 100)
           (get "https://example.com/health") init "example.com" eq_refl))).
  exists "GET", 200, (Float 100 0).
  split; [reflexivity|]. split; [reflexivity|]. split; [lia|reflexivity].
Defined.

(** C2. The probe is not total: for the endpoint [http://[::1], whose
    URL has an opening bracket without its partner, [getDomain] on line 36
    raises [ValueError] before the [try] is entered, and [checkEndpoint]
    passes it on to its caller whatever the network would have answered,
    although its handler says that any exception counts as DOWN. *)
Lemma checkEndpoint_raises_on_bad_url :
  checkEndpoint accept_all accept_all (answers 200 100) (get "http://[::1") init
  = (Raise (ValueError "Invalid IPv6 URL"), init).
Proof. vm_compute. reflexivity. Qed.

(** C1. The same endpoint is classified neither UP nor DOWN: with a
    network that times out, or answers 503, or answers 200 slowly, the
    probe raises and records nothing, where every outcome other than a
    fast 2xx should have counted as DOWN. *)
Lemma checkEndpoint_bad_url_not_classified :
  let after session :=
    checkEndpoint accept_all accept_all session (get "http://[::1") init in
  after times_out = (Raise (ValueError "Invalid IPv6 URL"), init) /\
  after (answers 503 50) = (Raise (ValueError "Invalid IPv6 URL"), init) /\
  after (answers 200 600) = (Raise (ValueError "Invalid IPv6 URL"), init) /\
  store (domainStats (after times_out).2) = ∅.
Proof. repeat split; vm_compute; reflexivity. Qed.

Lemma checkEndpoint_absorbs_failures_witness :
  Urllib.urlsplit_netloc accept_all accept_all (url (get "https://example.com/health"))
  = Ok "example.com" /\
  exists w',
    checkEndpoint accept_all accept_all times_out (get "https://example.com/health") init
    = (Ok tt, w') /\
    domainStats w'
    = Spec.record {| Spec.domain := "example.com"; Spec.success := false |}
        (domainStats init).
Proof.
  split; [reflexivity|].
  destruct (checkEndpoint_absorbs_failures accept_all accept_all times_out
              (get "https://example.com/health") init "example.com" eq_refl)
    as (w' & Hrun & Hdown).
  exists w'. split; [exact Hrun|].
  exact (Hdown "GET" TimeoutError eq_refl eq_refl).
Defined.

Lemma checkEndpoint_counts_witness :
  Urllib.urlsplit_netloc accept_all accept_all (url (get "https://example.com/health"))
  = Ok "example.com" /\
  store (domainStats
           (checkEndpoint accept_all accept_all (answers 200 100)
              (get "https://example.com/health") init).2) !! "example.com"
  = Some {| up := 0 + 1; total := 0 + 1 |}.
Proof.
  split; [reflexivity|].
  apply (proj1 (proj2 (checkEndpoint_counts accept_all accept_all (answers 200 100)
           (get "https://example.com/health") init "example.com" eq_refl))).
  reflexivity.
Defined.

Lemma printAvailability_report_witness :
  counters_ok (domainStats idle_world) /\
  printAvailability idle_world
  = (Ok tt, put_lines ["a.example has 50% availability percentage"] idle_world).
Proof.
  assert (H : counters_ok (domainStats idle_world)).
  { split; [split|].
    - cbn. apply NoDup_cons. split; [|apply NoDup_singleton].
      intros H%list_elem_of_singleton. discriminate H.
    - intros k. unfold idle_world; cbn [domainStats store keys]. rewrite !elem_of_cons, elem_of_nil.
      destruct (decide (k = "idle.example")) as [->|Hi].
      + rewrite lookup_insert_eq. split; eauto.
      + rewrite lookup_insert_ne by congruence.
        destruct (decide (k = "a.example")) as [->|Ha].
        * rewrite lookup_insert_eq. split; eauto.
        * rewrite lookup_insert_ne, lookup_empty by congruence.
          split; [intros [?|[?|[]]]; congruence|intros [x Hx]; discriminate].
    - unfold idle_world; cbn [domainStats store keys]. intros k s.
      destruct (decide (k = "idle.example")) as [->|Hi].
      + rewrite lookup_insert_eq. intros [= <-]. cbn [up total]. lia.
      + rewrite lookup_insert_ne by congruence.
        destruct (decide (k = "a.example")) as [->|Ha].
        * rewrite lookup_insert_eq. intros [= <-]. cbn [up total]. lia.
        * rewrite lookup_insert_ne, lookup_empty by congruence. discriminate. }
  split; [exact H|].
  rewrite (proj1 (printAvailability_report idle_world H)). reflexivity.
Defined.

(** C6, as stated, fails: the domain does not carry the scheme, it does
    carry the user information, and a URL with an unmatched bracket has no
    domain at all: [getDomain] raises. *)
Lemma getDomain_counterexample :
  getDomain accept_all accept_all "https://example.com:8080/health?x=1" init
  = (Ok "example.com:8080", init) /\
  getDomain accept_all accept_all "https://user:pw@example.com/" init
  = (Ok "user:pw@example.com", init) /\
  getDomain accept_all accept_all "http://[::1" init
  = (Raise (ValueError "Invalid IPv6 URL"), init).
Proof. repeat split; vm_compute; reflexivity. Qed.

Lemma getDomain_is_authority_witness :
  Urllib.is_scheme "https" = true /\
  Urllib.is_authority "user:pw@example.com:8080" = true /\
  Urllib.is_path_query_fragment "/health?x=1" = true /\
  getDomain accept_all accept_all "https://user:pw@example.com:8080/health?x=1" init
  = (Ok "user:pw@example.com:8080", init).
Proof.
  split; [reflexivity|]. split; [reflexivity|]. split; [reflexivity|].
  exact (proj1 (getDomain_is_authority accept_all accept_all)
           "https" "user:pw@example.com:8080" "/health?x=1" init
           eq_refl eq_refl eq_refl eq_refl eq_refl eq_refl).
Defined.

(** C7, as stated, fails: the probe itself changes [self.domainStats],
    and what it returns is [None]. *)
Lemma checkEndpoint_mutates_example :
  let r := checkEndpoint accept_all accept_all (answers 200 100)
             (get "https://example.com/health") init in
  r.1 = Ok tt /\
  store (domainStats init) !! "example.com" = None /\
  store (domainStats r.2) !! "example.com" = Some {| up := 1; total := 1 |}.
Proof. repeat split; vm_compute; reflexivity. Qed.

Lemma checkEndpoint_records_in_place_witness :
  Urllib.urlsplit_netloc accept_all accept_all (url (get "https://example.com/health"))
  = Ok "example.com" /\
  Spec.record {| Spec.domain := "example.com";
                 Spec.success := probe_success (answers 200 100)
                                   (get "https://example.com/health") |}
    (domainStats init)
  <> domainStats init.
Proof.
  split; [reflexivity|].
  exact (proj2 (checkEndpoint_records_in_place accept_all accept_all (answers 200 100)
                  (get "https://example.com/health") init "example.com" eq_refl)).
Defined.

Lemma accumulation_commutes_witness :
  example_probes ≡ₚ reverse example_probes /\
  dict_inv (domainStats init) /\
  store (domainStats (monitorCycle accept_all accept_all example_probes init).2)
  = store (domainStats
             (monitorCycle accept_all accept_all (reverse example_probes) init).2).
Proof.
  assert (Hp : example_probes ≡ₚ reverse example_probes)
    by (symmetry; apply reverse_Permutation).
  split; [exact Hp|]. split; [exact dict_inv_empty|].
  apply (proj1 (accumulation_commutes accept_all accept_all)
           example_probes (reverse example_probes) init Hp dict_inv_empty).
  repeat constructor; eexists; vm_compute; reflexivity.
Defined.

(** C9, as stated, fails: a SIGINT that arrives during a cycle does not
    make the loop exit before the next sleep.  The cycle ends, the sleep
    begins and ends, and only then is the flag tested. *)
Lemma sleep_follows_interrupt_example :
  let r := exec accept_all accept_all interrupted_run
             (Init (Ok [cfg "https://example.com/health"]), init) in
  r.1.1 = Exited 0 /\
  r.2 = [EvConfigLoaded; EvCycleBegin; EvInterrupt; EvProbeDone; EvReport;
         EvSleepBegin; EvSleepEnd; EvLoopExit] /\
  sleeps_after_interrupt r.2.
Proof.
  split; [vm_compute; reflexivity|]. split; [vm_compute; reflexivity|].
  exists [EvConfigLoaded; EvCycleBegin], [EvProbeDone; EvReport],
    [EvSleepEnd; EvLoopExit].
  vm_compute. reflexivity.
Qed.

Lemma cancellation_is_cooperative_witness :
  let w := set_running false init in
  let pending := [(answers 200 100, get "https://example.com/health")] in
  running w = false /\
  exec accept_all accept_all (replicate 5 (Resume [])) (Probing pending, w)
  = (Exited 0, (monitorCycle accept_all accept_all pending w).2,
     [EvProbeDone; EvReport; EvSleepBegin; EvSleepEnd; EvLoopExit]).
Proof.
  intros w pending. split; [reflexivity|].
  apply (proj2 (proj2 (proj2 (cancellation_is_cooperative accept_all accept_all)))
           pending w _ eq_refl).
  vm_compute. reflexivity.
Defined.

(** * Further properties of the monitor *)

(** ** [printAvailability] on any dictionary *)

(** With a divisor other than 0 the division can only fail by overflow. *)
Lemma int_true_div_raises a b e :
  b <> 0 -> int_true_div a b = Raise e -> e = OverflowError.
Proof.
  intros Hb. unfold int_true_div.
  destruct (b =? 0) eqn:E0; [apply Z.eqb_eq in E0; contradiction|].
  destruct (a =? 0); [discriminate|].
  destruct (_ && _); [|discriminate]. intros [= <-]. reflexivity.
Qed.

Lemma only_prints_refl w r : r = Ok tt \/ r = Raise OverflowError -> only_prints w (r, w).
Proof.
  intros Hr. repeat split; auto. exists []. rewrite app_nil_r. reflexivity.
Qed.

Lemma only_prints_after line w r :
  only_prints (put_stdout line w) r -> only_prints w r.
Proof.
  intros (H1 & H2 & H3 & H4 & H5 & ls & H6). repeat split; try assumption.
  exists (line :: ls). rewrite H6. cbn. rewrite <- app_assoc. reflexivity.
Qed.

(** The loop of [printAvailability] only appends to stdout, and the only
    exception it can raise is the [OverflowError] of the division. *)
Lemma print_items_frame l w :
  only_prints w
    (for_each l (fun '(domain, stats) =>
       if 0 <? total stats then
         let* quotient := lift (int_true_div (100 * up stats) (total stats)) in
         let availability := round quotient in
         modify (put_stdout (availability_line domain availability))
       else ret tt) w).
Proof.
  revert w. induction l as [|[k s] l IH]; intros w.
  - apply only_prints_refl. left. reflexivity.
  - cbn [for_each]. unfold bind at 1.
    destruct (0 <? total s) eqn:E.
    + unfold bind at 1, lift. apply Z.ltb_lt in E.
      destruct (int_true_div (100 * up s) (total s)) as [q|e] eqn:Eq.
      * unfold modify. eapply only_prints_after, IH.
      * apply int_true_div_raises in Eq; [|lia]. subst e.
        apply only_prints_refl. right. reflexivity.
    + unfold ret. apply IH.
Qed.

Lemma printAvailability_frame w : only_prints w (printAvailability w).
Proof.
  unfold printAvailability, bind at 1, gets.
  apply (print_items_frame (items (domainStats w)) w).
Qed.

(** ** The range of the percentages *)

Lemma rne_div_mono n n' d : 0 < d -> n <= n' -> rne_div n d <= rne_div n' d.
Proof.
  intros Hd Hn.
  destruct (rne_div_nearest n d Hd) as [Hp Hpe].
  destruct (rne_div_nearest n' d Hd) as [Hp' Hpe'].
  set (p := rne_div n d) in *. set (p' := rne_div n' d) in *. clearbody p p'.
  destruct (decide (p <= p')) as [|Hgt]; [assumption|]. exfalso.
  assert (Hd1 : d * (p' + 1) <= d * p) by (apply Z.mul_le_mono_nonneg_l; lia).
  assert (H1 : 2 * Z.abs (n - p * d) = d) by lia.
  assert (H2 : 2 * Z.abs (n' - p' * d) = d) by lia.
  assert (p = p' + 1) by nia. subst p.
  specialize (Hpe H1). specialize (Hpe' H2).
  rewrite Z.even_add, Hpe' in Hpe. discriminate.
Qed.

Lemma rne_div_mul p d : 0 < d -> rne_div (p * d) d = p.
Proof.
  intros Hd. apply (nearest_even_unique (p * d) d); [exact Hd| |].
  - apply rne_div_nearest, Hd.
  - unfold nearest_even. replace (p * d - p * d) with 0 by ring. cbn. lia.
Qed.

(** The percentage of counters with [0 <= up <= total], whatever their
    size. *)
Lemma percentage_range u t q :
  0 <= u <= t -> 1 <= t ->
  int_true_div (100 * u) t = Ok q ->
  0 <= round q <= 100 /\ (u = 0 -> round q = 0) /\ (u = t -> round q = 100).
Proof.
  intros Hu Ht. unfold int_true_div.
  destruct (t =? 0) eqn:E0; [apply Z.eqb_eq in E0; lia|].
  destruct (100 * u =? 0) eqn:E1.
  - apply Z.eqb_eq in E1. intros [= <-]. cbn. lia.
  - apply Z.eqb_neq in E1.
    pose proof (ilog2_ratio_le (Z.abs (100 * u)) (Z.abs t)) as Hl.
    set (e := Z.max (ilog2_ratio (Z.abs (100 * u)) (Z.abs t) - 52) (-1074)).
    assert (He : -1074 <= e <= -46) by (subst e; lia).
    clearbody e.
    destruct (0 <=? e) eqn:E2; [apply Z.leb_le in E2; lia|].
    cbn [andb]. intros [= <-]. unfold round. cbn [Fexp Fnum]. rewrite E2.
    replace (Z.max 0 e) with 0 by lia.
    replace (Z.max 0 (- e)) with (- e) by lia.
    rewrite Z.abs_eq, Z.abs_eq by lia.
    replace (Z.sgn (100 * u) * Z.sgn t) with 1 by lia.
    rewrite Z.pow_0_r, Z.mul_1_r, Z.mul_1_l.
    assert (HK : 0 < 2 ^ (- e)) by (apply Z.pow_pos_nonneg; lia).
    set (K := 2 ^ (- e)) in *. clearbody K.
    assert (H0 : 0 <= rne_div (100 * u * K) t).
    { pose proof (rne_div_mono (0 * t) (100 * u * K) t ltac:(lia) ltac:(nia)) as H.
      rewrite rne_div_mul in H by lia. exact H. }
    assert (H100 : rne_div (100 * u * K) t <= 100 * K).
    { pose proof (rne_div_mono (100 * u * K) (100 * K * t) t ltac:(lia) ltac:(nia)) as H.
      rewrite rne_div_mul in H by lia. exact H. }
    assert (Hfull : u = t -> rne_div (100 * u * K) t = 100 * K).
    { intros ->. replace (100 * t * K) with (100 * K * t) by ring.
      apply rne_div_mul. lia. }
    set (m := rne_div (100 * u * K) t) in *. clearbody m.
    split; [split|split].
    + pose proof (rne_div_mono (0 * K) m K HK ltac:(lia)) as H.
      rewrite rne_div_mul in H by lia. exact H.
    + pose proof (rne_div_mono m (100 * K) K HK H100) as H.
      rewrite rne_div_mul in H by lia. exact H.
    + lia.
    + intros Hut. rewrite (Hfull Hut). apply rne_div_mul. lia.
Qed.

(** X. Every percentage [printAvailability] prints for counters with
    [0 <= up <= total] lies between 0 and 100, whatever the size of the
    counters; it is 0 for a domain that was never UP and 100 for a domain
    that was never DOWN. *)
Theorem printed_percentages_in_range w :
  counters_ok (domainStats w) ->
  exists rep,
    printAvailability w = (Ok tt, put_lines (report_line <$> rep) w) /\
    forall k p, (k, p) ∈ rep ->
      0 <= p <= 100 /\
      exists s, store (domainStats w) !! k = Some s /\ 0 < total s /\
                (up s = 0 -> p = 0) /\ (up s = total s -> p = 100).
Proof.
  intros Hc. exists (Spec.report (domainStats w)).
  split; [apply printAvailability_run, Hc|].
  destruct Hc as [Hwf Hst]. intros k p Hin.
  apply report_elem in Hin; [|exact Hwf]. destruct Hin as (s & Hs & Hp).
  assert (Ht : 0 < total s).
  { unfold Spec.percentage in Hp.
    destruct (0 <? total s) eqn:E; [|discriminate]. apply Z.ltb_lt, E. }
  destruct (percentage_Some s (Hst k s Hs) Ht) as (q & Hq & Hp').
  rewrite Hp in Hp'. injection Hp' as ->.
  destruct (percentage_range (up s) (total s) q (Hst k s Hs) ltac:(lia) Hq)
    as (Hr & Hz & Hf).
  split; [exact Hr|]. exists s. repeat split; auto.
Qed.

(** ** What the counters count *)

Lemma entry_record o d k :
  entry (Spec.record o d) k
  = if decide (Spec.domain o = k) then Spec.bump (Spec.success o) (entry d k)
    else entry d k.
Proof.
  unfold entry at 1. destruct (decide (Spec.domain o = k)) as [<-|Hne].
  - rewrite record_lookup. reflexivity.
  - rewrite record_lookup_ne by congruence. reflexivity.
Qed.

Lemma entry_record_all os d k :
  up (entry (record_all os d) k) = up (entry d k) + ups_of k os /\
  total (entry (record_all os d) k) = total (entry d k) + probes_of k os.
Proof.
  revert d. induction os as [|o os IH]; intros d.
  - unfold ups_of, probes_of. cbn. lia.
  - cbn [record_all foldl]. fold (record_all os (Spec.record o d)).
    destruct (IH (Spec.record o d)) as [IHu IHt]. rewrite IHu, IHt.
    rewrite entry_record. unfold ups_of, probes_of. rewrite !filter_cons.
    unfold Spec.bump.
    repeat case_decide; destruct (Spec.success o) eqn:Es; cbn [up total length];
      try lia; exfalso; intuition congruence.
Qed.

Lemma record_all_app os1 os2 d :
  record_all (os1 ++ os2) d = record_all os2 (record_all os1 d).
Proof. unfold record_all. apply foldl_app. Qed.

Lemma record_all_wf os d : dict_wf d -> dict_wf (record_all os d).
Proof.
  revert d. induction os as [|o os IH]; intros d H; [exact H|].
  cbn. apply IH, record_wf, H.
Qed.

(** ** The order of the keys *)

Lemma first_seen_ext seen seen' ds :
  (forall x, x ∈ seen <-> x ∈ seen') -> first_seen seen ds = first_seen seen' ds.
Proof.
  revert seen seen'. induction ds as [|k ds IH]; intros seen seen' H; [reflexivity|].
  cbn. destruct (decide (k ∈ seen)) as [Hin|Hin].
  - rewrite decide_True by (apply H, Hin). apply IH, H.
  - rewrite decide_False by (rewrite <- H; exact Hin). f_equal.
    apply IH. intros x. rewrite !elem_of_cons, H. reflexivity.
Qed.

Lemma record_all_keys os d :
  dict_wf d ->
  keys (record_all os d) = keys d ++ first_seen (keys d) (Spec.domain <$> os).
Proof.
  revert d. induction os as [|o os IH]; intros d Hwf.
  - cbn. rewrite app_nil_r. reflexivity.
  - cbn [record_all foldl]. fold (record_all os (Spec.record o d)).
    rewrite (IH _ (record_wf o d Hwf)), record_keys.
    cbn [fmap list_fmap first_seen]. destruct Hwf as [_ Hk].
    destruct (store d !! Spec.domain o) as [s|] eqn:E.
    + rewrite decide_True by (apply Hk; eauto). reflexivity.
    + rewrite decide_False.
      2:{ intros Hin%Hk. destruct Hin as [x Hx]. congruence. }
      rewrite <- app_assoc. cbn. do 2 f_equal.
      apply first_seen_ext. intros x.
      rewrite elem_of_app, list_elem_of_singleton, elem_of_cons. tauto.
Qed.

(** Under the invariant every key has a line in the report. *)
Lemma report_domains d : dict_inv d -> (Spec.report d).*1 = keys d.
Proof.
  intros [[_ Hk] Hst]. rewrite report_keys.
  assert (Hall : Forall (fun k => k ∈ keys d) (keys d)) by (apply Forall_forall; auto).
  induction Hall as [|k l Hin _ IH]; [reflexivity|].
  cbn. apply Hk in Hin. destruct Hin as [s Hs]. rewrite Hs.
  destruct (Hst k s Hs) as [Hu Ht].
  destruct (percentage_Some s Hu ltac:(lia)) as (q & _ & ->). cbn.
  f_equal. exact IH.
Qed.

(** ** Counters only grow *)

Lemma stats_le_refl d : stats_le d d.
Proof. intros k s Hs. exists s. split; [exact Hs|lia]. Qed.

Lemma stats_le_trans d1 d2 d3 : stats_le d1 d2 -> stats_le d2 d3 -> stats_le d1 d3.
Proof.
  intros H12 H23 k s Hs. destruct (H12 k s Hs) as (s2 & Hs2 & ? & ?).
  destruct (H23 k s2 Hs2) as (s3 & Hs3 & ? & ?). exists s3. split; [exact Hs3|lia].
Qed.

Lemma stats_le_record o d : stats_le d (Spec.record o d).
Proof.
  intros k s Hs. destruct (decide (k = Spec.domain o)) as [->|Hne].
  - rewrite record_lookup. eexists. split; [reflexivity|].
    unfold entry. rewrite Hs. unfold Spec.bump. cbn. destruct (Spec.success o); lia.
  - rewrite record_lookup_ne by exact Hne. exists s. split; [exact Hs|lia].
Qed.

(** ** Cycles *)

Section MonitorFacts.

Variable check_bracketed_netloc : string -> option string.
Variable checknetloc : string -> option string.

Local Abbreviation netloc := (Urllib.urlsplit_netloc check_bracketed_netloc checknetloc).
Local Abbreviation checkEndpoint := (checkEndpoint check_bracketed_netloc checknetloc).
Local Abbreviation monitorCycle := (monitorCycle check_bracketed_netloc checknetloc).
Local Abbreviation probe_outcome := (probe_outcome check_bracketed_netloc checknetloc).
Local Abbreviation step := (step check_bracketed_netloc checknetloc).
Local Abbreviation exec := (exec check_bracketed_netloc checknetloc).

(** X. After a cycle, the [total] of every domain has grown by the number
    of probes of the cycle that belong to the domain, and its [up] by the
    number of those that were UP. *)
Theorem cycle_counts probes os w k :
  dict_inv (domainStats w) ->
  Forall2 (fun p o => probe_outcome p = Ok o) probes os ->
  let before := entry (domainStats w) k in
  let after := entry (domainStats (monitorCycle probes w).2) k in
  total after = total before + probes_of k os /\
  up after = up before + ups_of k os.
Proof.
  intros Hinv Hos before after. subst before after.
  rewrite (monitorCycle_run _ _ probes os w Hinv Hos).
  cbn [snd put_lines set_domainStats domainStats].
  destruct (entry_record_all os (domainStats w) k) as [Hu Ht]. split; assumption.
Qed.

Lemma Forall2_outcomes_app probes1 probes2 os1 os2 :
  Forall2 (fun p o => probe_outcome p = Ok o) probes1 os1 ->
  Forall2 (fun p o => probe_outcome p = Ok o) probes2 os2 ->
  Forall2 (fun p o => probe_outcome p = Ok o) (probes1 ++ probes2) (os1 ++ os2).
Proof. apply Forall2_app. Qed.

(** X. The statistics are cumulative: a second cycle starts from the
    counters the first one left, so two cycles in a row leave the
    dictionary that one cycle over all their probes would leave, and the
    report of the second cycle is the report of all probes so far. *)
Theorem cycles_accumulate probes1 probes2 os1 os2 w :
  dict_inv (domainStats w) ->
  Forall2 (fun p o => probe_outcome p = Ok o) probes1 os1 ->
  Forall2 (fun p o => probe_outcome p = Ok o) probes2 os2 ->
  let w1 := (monitorCycle probes1 w).2 in
  let w2 := (monitorCycle probes2 w1).2 in
  domainStats w2 = domainStats (monitorCycle (probes1 ++ probes2) w).2 /\
  domainStats w2 = record_all (os1 ++ os2) (domainStats w) /\
  stdout w2 = stdout w1 ++ (report_line <$> Spec.report (domainStats w2)).
Proof.
  intros Hinv H1 H2 w1 w2. subst w1 w2.
  rewrite (monitorCycle_run _ _ probes1 os1 w Hinv H1).
  rewrite (monitorCycle_run _ _ (probes1 ++ probes2) (os1 ++ os2) w Hinv
             (Forall2_outcomes_app _ _ _ _ H1 H2)).
  rewrite (monitorCycle_run _ _ probes2 os2).
  - cbn [snd put_lines set_domainStats domainStats stdout].
    rewrite record_all_app. repeat split; reflexivity.
  - cbn [snd put_lines set_domainStats domainStats]. apply record_all_inv, Hinv.
  - exact H2.
Qed.

(** X. The dictionary keeps the domains in the order in which they were
    first recorded: a cycle appends the domains it sees for the first
    time, in the order of the first reply of each, and the report lists
    one line per key in exactly that order. *)
Theorem report_in_first_seen_order probes os w :
  dict_inv (domainStats w) ->
  Forall2 (fun p o => probe_outcome p = Ok o) probes os ->
  let w1 := (monitorCycle probes w).2 in
  keys (domainStats w1)
  = keys (domainStats w) ++ first_seen (keys (domainStats w)) (Spec.domain <$> os) /\
  exists rep,
    stdout w1 = stdout w ++ (report_line <$> rep) /\
    rep.*1 = keys (domainStats w1).
Proof.
  intros Hinv Hos w1. subst w1.
  rewrite (monitorCycle_run _ _ probes os w Hinv Hos).
  cbn [snd put_lines set_domainStats domainStats stdout].
  split; [apply record_all_keys, Hinv|].
  exists (Spec.report (record_all os (domainStats w))).
  split; [reflexivity|]. apply report_domains, record_all_inv, Hinv.
Qed.

Lemma step_domainStats i p w :
  domainStats (step i (p, w)).1.2 = domainStats w
  \/ exists o, domainStats (step i (p, w)).1.2 = Spec.record o (domainStats w).
Proof.
  unfold step.
  destruct p as [yaml| |[|[session endpoint] rest]| | |n], i as [|probes];
    rewrite ?(proj1 (guarded_world _ _ _ _)); try (left; reflexivity).
  - left. apply loadConfig_domainStats.
  - left. destruct (running w); [destruct (bool_decide _)|]; reflexivity.
  - left. apply (printAvailability_frame w).
  - rewrite checkEndpoint_run. destruct (netloc (url endpoint)) as [d|e].
    + right. eexists. reflexivity.
    + left. reflexivity.
Qed.

(** X. The counters are never reset: through any run of the process, no
    entry of [domainStats] is removed and neither [up] nor [total] of an
    entry ever goes down. *)
Theorem counters_never_decrease inputs p w :
  stats_le (domainStats w) (domainStats (exec inputs (p, w)).1.2).
Proof.
  revert p w. induction inputs as [|i inputs IH]; intros p w.
  - apply stats_le_refl.
  - cbn [exec].
    pose proof (step_domainStats i p w) as Hs.
    destruct (step i (p, w)) as [[p1 w1] t1]. cbn [fst snd] in Hs.
    specialize (IH p1 w1). destruct (exec inputs (p1, w1)) as [c2 t2].
    cbn [fst snd] in *. eapply stats_le_trans; [|exact IH].
    destruct Hs as [->|[o ->]]; [apply stats_le_refl|apply stats_le_record].
Qed.

End MonitorFacts.

(** ** The loop of [run] *)

Section RunFacts.

Variable check_bracketed_netloc : string -> option string.
Variable checknetloc : string -> option string.

Local Abbreviation netloc := (Urllib.urlsplit_netloc check_bracketed_netloc checknetloc).
Local Abbreviation checkEndpoint := (checkEndpoint check_bracketed_netloc checknetloc).
Local Abbreviation monitorCycle := (monitorCycle check_bracketed_netloc checknetloc).
Local Abbreviation probe_outcome := (probe_outcome check_bracketed_netloc checknetloc).
Local Abbreviation step := (step check_bracketed_netloc checknetloc).
Local Abbreviation exec := (exec check_bracketed_netloc checknetloc).

Lemma exec_exited inputs n w : exec inputs (Exited n, w) = (Exited n, w, []).
Proof.
  induction inputs as [|i inputs IH]; [reflexivity|].
  cbn [exec]. replace (step i (Exited n, w)) with (Exited n, w, @nil event)
    by (destruct i; reflexivity).
  rewrite IH. reflexivity.
Qed.

Lemma monitorCycle_cons session endpoint rest w :
  monitorCycle ((session, endpoint) :: rest) w
  = match checkEndpoint session endpoint w with
    | (Ok _, w1) => monitorCycle rest w1
    | (Raise e, w1) => (Raise e, w1)
    end.
Proof.
  unfold monitorCycle. cbn [for_each]. unfold bind.
  destruct (checkEndpoint session endpoint w) as [[[]|e] w1]; reflexivity.
Qed.

Lemma exec_probing_cons probes inputs session endpoint rest w :
  exec (Resume probes :: inputs) (Probing ((session, endpoint) :: rest), w)
  = match checkEndpoint session endpoint w with
    | (Ok _, w1) =>
        ((exec inputs (Probing rest, w1)).1,
         EvProbeDone :: (exec inputs (Probing rest, w1)).2)
    | (Raise e, w1) =>
        (Exited 1, put_stderr ("Error: " +:+ exn_str e) w1, [EvFatal])
    end.
Proof.
  cbn [exec]. unfold step at 1, guarded, fatal.
  destruct (checkEndpoint session endpoint w) as [[[]|e] w1].
  - destruct (exec inputs (Probing rest, w1)) as [c2 t2]. reflexivity.
  - rewrite exec_exited. reflexivity.
Qed.

(** A cycle that returns, run from its first probe to the next test of
    the flag. *)
Lemma cycle_to_loop_head pending w w' :
  monitorCycle pending w = (Ok tt, w') ->
  exec (replicate (length pending + 3) (Resume [])) (Probing pending, w)
  = (LoopHead, w',
     replicate (length pending) EvProbeDone ++ [EvReport; EvSleepBegin; EvSleepEnd]).
Proof.
  revert w. induction pending as [|[session endpoint] rest IH]; intros w Hc.
  - unfold monitorCycle in Hc. cbn [for_each] in Hc. unfold bind at 1, ret in Hc.
    cbn [length Nat.add replicate exec]. unfold step at 1. unfold guarded.
    rewrite Hc. reflexivity.
  - rewrite monitorCycle_cons in Hc. cbn [length Nat.add replicate].
    rewrite exec_probing_cons.
    destruct (checkEndpoint session endpoint w) as [[[]|e] w1]; [|discriminate].
    rewrite (IH w1 Hc). reflexivity.
Qed.

Lemma ignores_monitorCycle probes : ignores_running (monitorCycle probes).
Proof.
  unfold monitorCycle. apply ignores_bind.
  - apply ignores_for_each. intros [session endpoint]. apply ignores_checkEndpoint.
  - intros _. apply ignores_printAvailability.
Qed.

(** X. One turn of the loop while the monitor runs: from the test of the
    flag, a cycle over the configured endpoints that does not raise runs
    all its probes, prints its report, sleeps and comes back to the test
    of the flag with the flag still set; its effect is that of
    [monitorCycle]. *)
Theorem loop_iteration probes w w' :
  running w = true ->
  probes.*2 ≡ₚ endpoints w ->
  monitorCycle probes w = (Ok tt, w') ->
  exec (Resume probes :: replicate (length probes + 3) (Resume [])) (LoopHead, w)
  = (LoopHead, w',
     EvCycleBegin :: replicate (length probes) EvProbeDone
       ++ [EvReport; EvSleepBegin; EvSleepEnd]) /\
  running w' = true.
Proof.
  intros Hrun Hperm Hc. split.
  - cbn [exec]. unfold step at 1. rewrite Hrun, bool_decide_eq_true_2 by exact Hperm.
    rewrite (cycle_to_loop_head probes w w' Hc). reflexivity.
  - pose proof (ignores_running_preserves _ w (ignores_monitorCycle probes)) as H.
    rewrite Hc in H. cbn [snd] in H. congruence.
Qed.

End RunFacts.

(** ** How [run] ends *)

Section ExitFacts.

Variable check_bracketed_netloc : string -> option string.
Variable checknetloc : string -> option string.

Local Abbreviation netloc := (Urllib.urlsplit_netloc check_bracketed_netloc checknetloc).
Local Abbreviation checkEndpoint := (checkEndpoint check_bracketed_netloc checknetloc).
Local Abbreviation step := (step check_bracketed_netloc checknetloc).
Local Abbreviation exec := (exec check_bracketed_netloc checknetloc).

Lemma run_inv_running p w t :
  (forall n, p <> Exited n) ->
  run_inv (p, w) t <-> stderr w = [] /\ (running w = false -> EvInterrupt ∈ t).
Proof. intros Hp. destruct p; try reflexivity. exfalso. exact (Hp status eq_refl). Qed.

Lemma guarded_run_inv (m : M unit) next ev w t0 :
  (forall n, next <> Exited n) ->
  stderr (m w).2 = stderr w ->
  (running (m w).2 = false -> running w = false \/ ev = EvInterrupt) ->
  stderr w = [] -> (running w = false -> EvInterrupt ∈ t0) ->
  run_inv (guarded m next ev w).1 (t0 ++ (guarded m next ev w).2).
Proof.
  intros Hnext Herr Hrun He Hr. unfold guarded.
  destruct (m w) as [[[]|e] w']; cbn [fst snd] in *.
  - apply run_inv_running; [exact Hnext|]. split; [congruence|].
    intros Hw. rewrite elem_of_app, list_elem_of_singleton.
    destruct (Hrun Hw) as [H| ->]; auto.
  - right. split; [reflexivity|]. split.
    + rewrite elem_of_app, list_elem_of_singleton. auto.
    + exists e. cbn. rewrite Herr, He. reflexivity.
Qed.

Lemma step_run_inv i c t0 :
  run_inv c t0 -> run_inv (step i c).1 (t0 ++ (step i c).2).
Proof.
  destruct c as [p w]. intros H.
  assert (Hex : (exists n, p = Exited n) \/ (forall n, p <> Exited n))
    by (destruct p; try (right; intros; discriminate); left; eauto).
  destruct Hex as [[n ->]|Hp'].
  { replace (step i (Exited n, w)) with (Exited n, w, @nil event)
      by (destruct i; reflexivity).
    cbn [fst snd]. rewrite app_nil_r. exact H. }
  apply run_inv_running in H as [He Hr]; [|exact Hp'].
  assert (Hsig : run_inv (guarded handleInterrupt p EvInterrupt w).1
                   (t0 ++ (guarded handleInterrupt p EvInterrupt w).2)).
  { apply guarded_run_inv; auto. }
  assert (Hkeep : forall next ev, (forall n, next <> Exited n) ->
            run_inv (next, w) (t0 ++ [ev])).
  { intros next ev Hn. apply run_inv_running; [exact Hn|]. split; [exact He|].
    intros Hw. rewrite elem_of_app. auto. }
  unfold step.
  destruct p as [yaml| |[|[session endpoint] rest]| | |n], i as [|probes];
    try exact Hsig; try (apply Hkeep; discriminate).
  - apply guarded_run_inv; auto; try discriminate.
    + unfold loadConfig, bind, lift. destruct yaml; reflexivity.
    + rewrite (proj2 (loadConfig_domainStats yaml w)). auto.
  - destruct (running w) eqn:Hw.
    + destruct (bool_decide _); cbn [fst snd].
      * apply Hkeep. discriminate.
      * rewrite app_nil_r. apply run_inv_running; [discriminate|].
        split; [exact He|congruence].
    + left. split; [reflexivity|]. split; [|exact He].
      rewrite elem_of_app. auto.
  - pose proof (printAvailability_frame w) as (_ & _ & _ & Hrun & Herr & _).
    apply guarded_run_inv; auto; try discriminate. rewrite Hrun. auto.
  - apply guarded_run_inv; auto; try discriminate.
    + rewrite checkEndpoint_run. destruct (netloc (url endpoint)); reflexivity.
    + rewrite checkEndpoint_run. destruct (netloc (url endpoint)); cbn; auto.
  - exfalso. exact (Hp' n eq_refl).
  - exfalso. exact (Hp' n eq_refl).
Qed.

Lemma exec_run_inv inputs c t0 :
  run_inv c t0 -> run_inv (exec inputs c).1 (t0 ++ (exec inputs c).2).
Proof.
  revert c t0. induction inputs as [|i inputs IH]; intros c t0 H.
  - cbn. rewrite app_nil_r. exact H.
  - cbn [exec]. pose proof (step_run_inv i c t0 H) as H1.
    destruct (step i c) as [c1 t1]. cbn [fst snd] in H1.
    specialize (IH c1 (t0 ++ t1) H1).
    destruct (exec inputs c1) as [c2 t2]. cbn [fst snd] in *.
    rewrite app_assoc. exact IH.
Qed.

(** X. [run] ends in one of two ways, whatever the configuration, the
    network and the interrupts: with status 0, and then a SIGINT was
    handled and nothing was written to stderr; or with status 1, and then
    an exception reached [run] and stderr holds exactly its line
    [Error: ...].  In particular the monitor never stops by itself. *)
Theorem exit_status yaml inputs n :
  let r := exec inputs (Init yaml, init) in
  r.1.1 = Exited n ->
  (n = 0 /\ EvInterrupt ∈ r.2 /\ stderr r.1.2 = []) \/
  (n = 1 /\ EvFatal ∈ r.2 /\ exists e, stderr r.1.2 = ["Error: " +:+ exn_str e]).
Proof.
  intros r Hr. subst r.
  assert (H0 : run_inv (Init yaml, init) []).
  { split; [reflexivity|]. cbn. discriminate. }
  pose proof (exec_run_inv inputs _ _ H0) as H. cbn [app] in H.
  destruct (exec inputs (Init yaml, init)) as [[p w] t]. cbn [fst snd] in *.
  subst p. exact H.
Qed.

Lemma step_idle_inv i c :
  idle_inv c -> idle_inv (step i c).1 /\ EvProbeDone ∉ (step i c).2.
Proof.
  destruct c as [p w]. intros (Hep & Hd & He & Ho & Hp). cbn [fst snd] in *.
  assert (Hsig : forall q, q = p ->
            (q = Init (Ok []) \/ q = LoopHead \/ q = Probing [] \/
             q = CycleDone \/ q = Sleeping) ->
            idle_inv (guarded handleInterrupt q EvInterrupt w).1
            /\ EvProbeDone ∉ (guarded handleInterrupt q EvInterrupt w).2).
  { intros q _ Hq. cbn. split.
    - repeat split; cbn; auto.
      + apply Forall_app. split; [exact Ho|]. repeat constructor.
      + tauto.
    - intros Hin%list_elem_of_singleton. discriminate. }
  destruct Hp as [->|[->|[->|[->|[->| ->]]]]]; destruct i as [|probes];
    try (apply Hsig; [reflexivity|tauto]).
  - cbn. split; [|intros Hin%list_elem_of_singleton; discriminate].
    repeat split; cbn; auto.
  - unfold step. destruct (running w).
    + rewrite Hep. case_bool_decide as Hperm.
      * apply Permutation_nil_r, fmap_nil_inv in Hperm. subst probes.
        split; [repeat split; cbn; auto|].
        intros Hin%list_elem_of_singleton. discriminate.
      * split; [repeat split; cbn; auto|]. apply not_elem_of_nil.
    + split; [repeat split; cbn; auto 10|].
      intros Hin%list_elem_of_singleton. discriminate.
  - unfold step, guarded, printAvailability, bind, gets.
    rewrite Hd. cbn. split; [repeat split; cbn; auto 10|].
    intros Hin%list_elem_of_singleton. discriminate.
  - cbn. split; [repeat split; cbn; auto 10|].
    intros Hin%list_elem_of_singleton. discriminate.
  - cbn. split; [repeat split; cbn; auto 10|].
    intros Hin%list_elem_of_singleton. discriminate.
  - cbn. split; [repeat split; cbn; auto 10|]. apply not_elem_of_nil.
  - cbn. split; [repeat split; cbn; auto 10|]. apply not_elem_of_nil.
Qed.

(** X. With an empty list of endpoints the monitor keeps cycling without
    doing anything: through any run it makes no probe, creates no counter
    and prints no report line (stdout holds nothing but the notices of
    the interrupts), and it can only end with status 0. *)
Theorem empty_config_prints_nothing inputs :
  let r := exec inputs (Init (Ok []), init) in
  (EvProbeDone ∉ r.2) /\
  domainStats r.1.2 = dict_empty /\
  Forall (fun line => line = shutdown_notice) (stdout r.1.2) /\
  stderr r.1.2 = [] /\
  forall n, r.1.1 = Exited n -> n = 0.
Proof.
  intros r. subst r.
  assert (H0 : idle_inv (Init (Ok []), init)).
  { repeat split; cbn; auto. }
  assert (Hgen : forall inputs c, idle_inv c ->
            idle_inv (exec inputs c).1 /\ EvProbeDone ∉ (exec inputs c).2).
  { clear. intros inputs. induction inputs as [|i inputs IH]; intros c H.
    - cbn. split; [exact H|apply not_elem_of_nil].
    - cbn [exec]. destruct (step_idle_inv i c H) as [H1 H2].
      destruct (step i c) as [c1 t1]. cbn [fst snd] in *.
      destruct (IH c1 H1) as [H3 H4].
      destruct (exec inputs c1) as [c2 t2]. cbn [fst snd] in *.
      split; [exact H3|]. rewrite elem_of_app. tauto. }
  destruct (Hgen inputs _ H0) as [(Hep & Hd & He & Ho & Hp) Hno].
  repeat split; auto.
  intros n Hn. rewrite Hn in Hp.
  destruct Hp as [H|[H|[H|[H|[H|H]]]]]; try discriminate. congruence.
Qed.

(** X. A configuration that cannot be loaded is fatal at once: whatever
    interrupts arrive first, the first step of [run] prints [Error: ...]
    with the message of the exception on stderr and exits with status 1;
    no cycle starts and no counter is created. *)
Theorem config_error_is_fatal e k probes inputs :
  let r := exec (replicate k Sigint ++ Resume probes :: inputs) (Init (Raise e), init) in
  r.1.1 = Exited 1 /\
  stderr r.1.2 = ["Error: " +:+ exn_str e] /\
  stdout r.1.2 = replicate k shutdown_notice /\
  domainStats r.1.2 = dict_empty /\
  r.2 = replicate k EvInterrupt ++ [EvFatal].
Proof.
  intros r. subst r.
  assert (Hload : forall w,
    exec (Resume probes :: inputs) (Init (Raise e), w)
    = (Exited 1, put_stderr ("Error: " +:+ exn_str e) w, [EvFatal])).
  { intros w. cbn [exec].
    replace (step (Resume probes) (Init (Raise e), w))
      with (Exited 1, put_stderr ("Error: " +:+ exn_str e) w, [EvFatal])
      by reflexivity.
    rewrite exec_exited. reflexivity. }
  assert (Hgen : forall w,
    exec (replicate k Sigint ++ Resume probes :: inputs) (Init (Raise e), w)
    = (Exited 1,
       put_stderr ("Error: " +:+ exn_str e)
         (put_lines (replicate k shutdown_notice)
            (set_running ((k =? 0)%nat && running w) w)),
       replicate k EvInterrupt ++ [EvFatal])).
  { induction k as [|k IH]; intros w.
    - cbn [replicate app]. rewrite Hload. destruct w.
      unfold put_stderr, put_lines, set_running; cbn.
      rewrite app_nil_r. reflexivity.
    - cbn [replicate app exec].
      replace (step Sigint (Init (Raise e), w))
        with (Init (Raise e), set_running false (put_stdout shutdown_notice w),
              [EvInterrupt]) by reflexivity.
      rewrite IH. destruct w; cbn. unfold put_stderr, put_lines; cbn.
      rewrite <- app_assoc, andb_false_r. destruct k; reflexivity. }
  rewrite Hgen. cbn. repeat split; reflexivity.
Qed.

End ExitFacts.

(** ** [loadConfig] *)

Section ConfigFacts.

Variable check_bracketed_netloc : string -> option string.
Variable checknetloc : string -> option string.

Local Abbreviation netloc := (Urllib.urlsplit_netloc check_bracketed_netloc checknetloc).
Local Abbreviation checkEndpoint := (checkEndpoint check_bracketed_netloc checknetloc).
Local Abbreviation monitorCycle := (monitorCycle check_bracketed_netloc checknetloc).
Local Abbreviation check_netloc := (Urllib.check_netloc check_bracketed_netloc checknetloc).
Local Abbreviation getDomain := (getDomain check_bracketed_netloc checknetloc).

(** X. A configured entry whose URL has a domain and whose ['method'] key
    is absent or a string is probed with the request the file describes:
    its method or [GET], its URL, its headers or none, its body or none;
    the reply to that request alone decides the outcome.  An entry whose
    ['method'] key is there with a null value is not given [GET]: it is
    counted DOWN whatever the network would answer. *)
Theorem loaded_endpoint_probe l w c d session w0 :
  c ∈ l ->
  netloc (cfg_url c) = Ok d ->
  exists ep,
    ep ∈ endpoints (loadConfig (Ok l) w).2 /\
    url ep = cfg_url c /\
    checkEndpoint session ep w0
    = (Ok tt,
       set_domainStats
         (Spec.record
            {| Spec.domain := d;
               Spec.success :=
                 match cfg_method c with
                 | Null => false
                 | _ =>
                     match session (request_for c) with
                     | Response status elapsed_ms => isUP status elapsed_ms
                     | Failure _ => false
                     end
                 end |}) w0).
Proof.
  intros Hin Hd.
  set (f := fun entry : ConfigEntry =>
              {| url := cfg_url entry;
                 method := match cfg_method entry with
                           | Absent => Some "GET"
                           | Null => None
                           | Given m => Some m
                           end;
                 headers := cfg_headers entry; body := cfg_body entry |}).
  exists (f c). split; [|split; [reflexivity|]].
  - cbn. apply list_elem_of_In, in_map, list_elem_of_In, Hin.
  - rewrite checkEndpoint_run. cbn [url f]. rewrite Hd. do 4 f_equal.
    unfold probe_success, request_for, f. cbn [method url headers body].
    destruct (cfg_method c); reflexivity.
Qed.

(** ** More on the domain *)

Lemma check_netloc_Ok n d : check_netloc n = Ok d -> d = n.
Proof.
  unfold Urllib.check_netloc.
  destruct (_ || _); [discriminate|].
  destruct (if _ && _ then _ else _); [discriminate|].
  destruct (if Urllib.isascii n then _ else _); [discriminate|].
  intros [= <-]. reflexivity.
Qed.

Lemma splitnetloc_no_delim s :
  Urllib.string_existsb Urllib.is_netloc_delim (Urllib.splitnetloc s) = false.
Proof.
  induction s as [|c s IH]; [reflexivity|]. simpl.
  destruct (Urllib.is_netloc_delim c) eqn:E; [reflexivity|].
  simpl. rewrite E, IH. reflexivity.
Qed.

Lemma urlsplit_netloc_cases url :
  netloc url = Ok ""
  \/ exists rest, netloc url = check_netloc (Urllib.splitnetloc rest).
Proof.
  unfold Urllib.urlsplit_netloc.
  destruct (Urllib.strip_scheme _) as [|c1 [|c2 r]]; [left; reflexivity| |].
  - left. destruct c1 as [[] [] [] [] [] [] [] []]; reflexivity.
  - destruct c1 as [[] [] [] [] [] [] [] []]; try (left; reflexivity).
    destruct c2 as [[] [] [] [] [] [] [] []]; try (left; reflexivity).
    right. exists r. reflexivity.
Qed.

(** X. A domain never reaches into the rest of the URL: whatever the URL,
    the key [getDomain] returns contains no [/], no [?] and no [#]. *)
Theorem domain_without_delimiter url w d :
  (getDomain url w).1 = Ok d ->
  Urllib.string_existsb Urllib.is_netloc_delim d = false.
Proof.
  unfold getDomain, lift. cbn [fst].
  destruct (urlsplit_netloc_cases url) as [->|[rest ->]].
  - intros [= <-]. reflexivity.
  - intros ->%check_netloc_Ok. apply splitnetloc_no_delim.
Qed.

(** X. Endpoints are aggregated by authority alone: two endpoints whose
    URLs have the same authority are counted in the same entry, whatever
    their schemes, paths, queries and fragments.  A cycle that probes both
    adds 2 to the [total] of that entry and touches no other entry. *)
Theorem same_authority_same_entry
    scheme1 scheme2 authority rest1 rest2 session1 session2 ep1 ep2 w :
  Urllib.is_scheme scheme1 = true -> Urllib.is_scheme scheme2 = true ->
  Urllib.is_authority authority = true ->
  Urllib.is_path_query_fragment rest1 = true ->
  Urllib.is_path_query_fragment rest2 = true ->
  check_netloc authority = Ok authority ->
  url ep1 = scheme1 +:+ "://" +:+ authority +:+ rest1 ->
  url ep2 = scheme2 +:+ "://" +:+ authority +:+ rest2 ->
  dict_inv (domainStats w) ->
  let w' := (monitorCycle [(session1, ep1); (session2, ep2)] w).2 in
  total (entry (domainStats w') authority)
  = total (entry (domainStats w) authority) + 2 /\
  forall k, k <> authority ->
            store (domainStats w') !! k = store (domainStats w) !! k.
Proof.
  intros Hs1 Hs2 Ha Hr1 Hr2 Hok Hu1 Hu2 Hinv w'. subst w'.
  assert (H1 : netloc (url ep1) = Ok authority).
  { rewrite Hu1, urlsplit_netloc_authority by assumption. exact Hok. }
  assert (H2 : netloc (url ep2) = Ok authority).
  { rewrite Hu2, urlsplit_netloc_authority by assumption. exact Hok. }
  set (o1 := {| Spec.domain := authority; Spec.success := probe_success session1 ep1 |}).
  set (o2 := {| Spec.domain := authority; Spec.success := probe_success session2 ep2 |}).
  assert (Hos : Forall2 (fun p o => probe_outcome check_bracketed_netloc checknetloc p = Ok o)
                  [(session1, ep1); (session2, ep2)] [o1; o2]).
  { repeat constructor; unfold probe_outcome; cbn [fst snd]; rewrite ?H1, ?H2; reflexivity. }
  rewrite (monitorCycle_run _ _ _ _ w Hinv Hos).
  cbn [snd put_lines set_domainStats domainStats].
  split.
  - destruct (entry_record_all [o1; o2] (domainStats w) authority) as [_ ->].
    unfold probes_of. rewrite !filter_cons, !decide_True by reflexivity.
    reflexivity.
  - intros k Hk. cbn [record_all foldl].
    rewrite !record_lookup_ne by exact Hk. reflexivity.
Qed.

End ConfigFacts.

(** ** A probe without a method *)

Section MethodFacts.

Variable check_bracketed_netloc : string -> option string.
Variable checknetloc : string -> option string.

Local Abbreviation netloc := (Urllib.urlsplit_netloc check_bracketed_netloc checknetloc).
Local Abbreviation checkEndpoint := (checkEndpoint check_bracketed_netloc checknetloc).

(** X. An endpoint that reaches [checkEndpoint] without a method is
    counted DOWN without a request being made: the [KeyError] of
    [endpoint['method']] is raised inside the [try], so the result is the
    same whatever the network would answer, [total] goes up by one and
    [up] stays. *)
Theorem missing_method_counts_down session endpoint w d :
  method endpoint = None ->
  netloc (url endpoint) = Ok d ->
  checkEndpoint session endpoint w
  = (Ok tt,
     set_domainStats
       (Spec.record {| Spec.domain := d; Spec.success := false |}) w) /\
  forall session', checkEndpoint session' endpoint w = checkEndpoint session endpoint w.
Proof.
  intros Hm Hd.
  assert (H : forall s, probe_success s endpoint = false)
    by (intros s; unfold probe_success; rewrite Hm; reflexivity).
  split.
  - rewrite checkEndpoint_run, Hd, H. reflexivity.
  - intros session'. rewrite !checkEndpoint_run, Hd, !H. reflexivity.
Qed.

End MethodFacts.

(** ** Witnesses of the further properties *)

Lemma example_outcomes_ok :
  Forall2 (fun p o => probe_outcome accept_all accept_all p = Ok o)
    example_probes example_outcomes.
Proof. repeat constructor. Qed.

Lemma example_world_inv : dict_inv (domainStats example_world).
Proof. apply (record_all_inv example_outcomes dict_empty dict_inv_empty). Qed.

Lemma printed_percentages_in_range_witness :
  counters_ok (domainStats example_world) /\
  exists rep,
    printAvailability example_world
    = (Ok tt, put_lines (report_line <$> rep) example_world) /\
    Forall (fun e => 0 <= e.2 <= 100) rep.
Proof.
  assert (H : counters_ok (domainStats example_world))
    by apply dict_inv_counters_ok, example_world_inv.
  split; [exact H|].
  destruct (printed_percentages_in_range example_world H) as (rep & Hrun & Hrange).
  exists rep. split; [exact Hrun|].
  apply Forall_forall. intros [k p] Hin. exact (proj1 (Hrange k p Hin)).
Defined.

Lemma cycle_counts_witness :
  dict_inv (domainStats init) /\
  total (entry (domainStats (monitorCycle accept_all accept_all example_probes init).2)
           "a.example")
  = total (entry (domainStats init) "a.example") + probes_of "a.example" example_outcomes.
Proof.
  split; [exact dict_inv_empty|].
  exact (proj1 (cycle_counts accept_all accept_all example_probes example_outcomes
                  init "a.example" dict_inv_empty example_outcomes_ok)).
Defined.

Lemma cycles_accumulate_witness :
  dict_inv (domainStats init) /\
  domainStats
    (monitorCycle accept_all accept_all example_probes
       (monitorCycle accept_all accept_all example_probes init).2).2
  = record_all (example_outcomes ++ example_outcomes) (domainStats init).
Proof.
  split; [exact dict_inv_empty|].
  exact (proj1 (proj2 (cycles_accumulate accept_all accept_all
                         example_probes example_probes
                         example_outcomes example_outcomes init
                         dict_inv_empty example_outcomes_ok example_outcomes_ok))).
Defined.

Lemma report_in_first_seen_order_witness :
  dict_inv (domainStats init) /\
  keys (domainStats (monitorCycle accept_all accept_all example_probes init).2)
  = keys (domainStats init)
    ++ first_seen (keys (domainStats init)) (Spec.domain <$> example_outcomes).
Proof.
  split; [exact dict_inv_empty|].
  exact (proj1 (report_in_first_seen_order accept_all accept_all
                  example_probes example_outcomes init
                  dict_inv_empty example_outcomes_ok)).
Defined.

Lemma loop_iteration_witness :
  let w := set_endpoints [get "https://example.com/health"] init in
  let probes := [(answers 200 100, get "https://example.com/health")] in
  running w = true /\
  probes.*2 ≡ₚ endpoints w /\
  running (monitorCycle accept_all accept_all probes w).2 = true.
Proof.
  intros w probes. split; [reflexivity|]. split; [reflexivity|].
  apply (loop_iteration accept_all accept_all probes w
           (monitorCycle accept_all accept_all probes w).2);
    reflexivity.
Defined.

Lemma exit_status_witness :
  (exec accept_all accept_all interrupted_run
     (Init (Ok [cfg "https://example.com/health"]), init)).1.1 = Exited 0 /\
  ((0 = 0 /\
    EvInterrupt ∈ (exec accept_all accept_all interrupted_run
                     (Init (Ok [cfg "https://example.com/health"]), init)).2 /\
    stderr (exec accept_all accept_all interrupted_run
              (Init (Ok [cfg "https://example.com/health"]), init)).1.2 = []) \/
   (0 = 1 /\
    EvFatal ∈ (exec accept_all accept_all interrupted_run
                 (Init (Ok [cfg "https://example.com/health"]), init)).2 /\
    exists e,
      stderr (exec accept_all accept_all interrupted_run
                (Init (Ok [cfg "https://example.com/health"]), init)).1.2
      = ["Error: " +:+ exn_str e])).
Proof.
  split; [reflexivity|].
  apply (exit_status accept_all accept_all
           (Ok [cfg "https://example.com/health"]) interrupted_run 0).
  reflexivity.
Defined.

Lemma loaded_endpoint_probe_witness :
  let c := cfg_null_method "https://example.com/health" in
  c ∈ [cfg "https://example.com/"; c] /\
  Urllib.urlsplit_netloc accept_all accept_all (cfg_url c) = Ok "example.com" /\
  exists ep,
    ep ∈ endpoints (loadConfig (Ok [cfg "https://example.com/"; c]) init).2 /\
    checkEndpoint accept_all accept_all (answers 200 100) ep init
    = (Ok tt,
       set_domainStats
         (Spec.record {| Spec.domain := "example.com"; Spec.success := false |}) init).
Proof.
  intros c.
  assert (Hin : c ∈ [cfg "https://example.com/"; c])
    by (apply elem_of_cons; right; apply list_elem_of_singleton, eq_refl).
  split; [exact Hin|]. split; [reflexivity|].
  destruct (loaded_endpoint_probe accept_all accept_all
              [cfg "https://example.com/"; c] init c
              "example.com" (answers 200 100) init Hin eq_refl)
    as (ep & Hep & _ & Hrun).
  exists ep. split; [exact Hep|exact Hrun].
Defined.

Lemma domain_without_delimiter_witness :
  (getDomain accept_all accept_all "https://example.com:8080/health?x=1#top" init).1
  = Ok "example.com:8080" /\
  Urllib.string_existsb Urllib.is_netloc_delim "example.com:8080" = false.
Proof.
  split; [reflexivity|].
  exact (domain_without_delimiter accept_all accept_all
           "https://example.com:8080/health?x=1#top" init "example.com:8080" eq_refl).
Defined.

Lemma same_authority_same_entry_witness :
  let w' := (monitorCycle accept_all accept_all
               [(answers 200 100, get "https://example.com/health");
                (times_out, get "http://example.com/login?next=1")] init).2 in
  Urllib.check_netloc accept_all accept_all "example.com" = Ok "example.com" /\
  dict_inv (domainStats init) /\
  total (entry (domainStats w') "example.com")
  = total (entry (domainStats init) "example.com") + 2.
Proof.
  intros w'. split; [reflexivity|]. split; [exact dict_inv_empty|].
  exact (proj1 (same_authority_same_entry accept_all accept_all
                  "https" "http" "example.com" "/health" "/login?next=1"
                  (answers 200 100) times_out
                  (get "https://example.com/health")
                  (get "http://example.com/login?next=1") init
                  eq_refl eq_refl eq_refl eq_refl eq_refl eq_refl eq_refl eq_refl
                  dict_inv_empty)).
Defined.

Lemma missing_method_counts_down_witness :
  method bare_entry = None /\
  Urllib.urlsplit_netloc accept_all accept_all (url bare_entry) = Ok "example.com" /\
  checkEndpoint accept_all accept_all (answers 200 100) bare_entry init
  = (Ok tt,
     set_domainStats
       (Spec.record {| Spec.domain := "example.com"; Spec.success := false |}) init).
Proof.
  split; [reflexivity|]. split; [reflexivity|].
  exact (proj1 (missing_method_counts_down accept_all accept_all (answers 200 100)
                  bare_entry init "example.com" eq_refl eq_refl)).
Defined.
